(** * robot.running.builder.builders

    A shallow embedding of [TestSuiteBuilder] and [SuiteStructureParser]
    (src/robot/running/builder/builders.py) and the properties of the suite
    building pipeline: path validation, custom parser registration, the
    stack-based structure visitor, execution-mode reconciliation and the
    post-processing of the finished suite.

    Conventions.
    - Python exceptions are values of [exception]; fallible code returns
      [result].
    - [TestSuite] objects that the visitor shares between its stack, its
      [suite] attribute and the [suites] list of a parent live in a store
      (a list of cells addressed by position); attribute assignment through
      any alias is an update of the cell.
    - [LOGGER] calls only write to a log that nothing here reads back; they
      are left out.
    - [Path] objects are modelled by the string they print as. *)

From Stdlib Require Import Ascii String Lia.
From stdpp Require Import base list strings.

Local Open Scope string_scope.
Local Open Scope list_scope.
Set Warnings "-register-all".

(** ** Exceptions and results *)

(** [SystemError] is what the interpreter would raise on an internal
    inconsistency; here it marks a reference that points outside the store
    or a store that cannot be read back as a tree.  Lemma
    [parse_reads_back] shows that [parse] does not raise it once the
    traversal has completed. *)
Inductive exception :=
  | DataError (message : string)
  | TypeError (message : string)
  | KeyError
  | IndexError
  | AttributeError
  | SystemError.

Inductive result (A : Type) :=
  | Ok (a : A)
  | Raise (e : exception).
Arguments Ok {A} a.
Arguments Raise {A} e.

Definition bind {A B} (r : result A) (k : A -> result B) : result B :=
  match r with
  | Ok a => k a
  | Raise e => Raise e
  end.

Notation "'let*' x ':=' r 'in' k" := (bind r (fun x => k))
  (at level 10, x name, r at level 200, k at level 200).
Notation "'let*' ' p ':=' r 'in' k" := (bind r (fun x => match x with p => k end))
  (at level 10, p pattern, r at level 200, k at level 200).

(** [try: body except DataError as err: raise DataError(handler err.message)];
    any other exception passes through. *)
Definition except_DataError {A} (body : result A) (handler : string -> string) : result A :=
  match body with
  | Raise (DataError message) => Raise (DataError (handler message))
  | other => other
  end.

(** [try: body except TypeError as err: raise DataError(handler str(err))]. *)
Definition except_TypeError {A} (body : result A) (handler : string -> string) : result A :=
  match body with
  | Raise (TypeError message) => Raise (DataError (handler message))
  | other => other
  end.

(** Sequential iteration of a fallible, state-passing loop body. *)
Definition foldM {A S} (f : A -> S -> result S) : list A -> S -> result S :=
  fix go (l : list A) (s : S) : result S :=
    match l with
    | [] => Ok s
    | a :: l' => let* s' := f a s in go l' s'
    end.

(** ** Python dictionaries

    Insertion ordered: assigning to an existing key keeps its position. *)
Section Dict.
Context {K V : Type} `{EqDecision K}.

Definition dict := list (K * V).

Fixpoint dict_get (k : K) (d : dict) : option V :=
  match d with
  | [] => None
  | (k', v) :: d' => if decide (k = k') then Some v else dict_get k d'
  end.

Fixpoint dict_set (k : K) (v : V) (d : dict) : dict :=
  match d with
  | [] => [(k, v)]
  | (k', v') :: d' =>
      if decide (k = k') then (k, v) :: d' else (k', v') :: dict_set k v d'
  end.

Definition dict_keys (d : dict) : list K := d.*1.

(** [d[k]], raising [KeyError] on a missing key. *)
Definition getitem (d : dict) (k : K) : result V :=
  match dict_get k d with
  | Some v => Ok v
  | None => Raise KeyError
  end.
End Dict.
Arguments dict : clear implicits.

(** Truth value of a Python sequence: empty is false. *)
Definition truthy {A} (l : list A) : bool :=
  match l with
  | [] => false
  | _ :: _ => true
  end.

(** ** Paths *)

Definition Path := string.

(** [f"{source}"] for a [Path|None]. *)
Definition str (source : option Path) : string :=
  match source with
  | Some p => p
  | None => "None"
  end.

(** [a or b] on [Path|None] operands: a [Path] is always truthy. *)
Definition or_else {A} (a b : option A) : option A :=
  match a with
  | Some _ => a
  | None => b
  end.

(** ** robot.running.model.TestSuite *)

Module TestSuite.
(** The fields of a suite that the builder reads or writes.  [rpa] is the
    execution mode: [None] unset, [Some false] tests, [Some true] tasks. *)
Inductive t := Suite {
  name : string;
  source : option Path;
  tests : list string;
  suites : list t;
  rpa : option bool
}.

(** [suite.config(name=n, source=s)]. *)
Definition config (suite : t) (n : string) (s : option Path) : t :=
  Suite n s (tests suite) (suites suite) (rpa suite).

(** [suite.rpa = mode] on a suite nothing else refers to yet. *)
Definition set_rpa (suite : t) (mode : option bool) : t :=
  Suite (name suite) (source suite) (tests suite) (suites suite) mode.

(** Modelled from the spec: [TestSuite.has_tests], which lives in
    robot/model/testsuite.py.  A suite "contains at least one test/task"
    when it has one itself or some descendant has. *)
Fixpoint has_tests (suite : t) : bool :=
  match suite with
  | Suite _ _ ts cs _ =>
      match ts with
      | [] => existsb has_tests cs
      | _ :: _ => true
      end
  end.

(** Modelled from the spec: the recursive part of
    [TestSuite.remove_empty_suites]: "remove any subtree containing zero
    tests/tasks and zero non-empty descendant subtrees". *)
Fixpoint prune (suite : t) : t :=
  match suite with
  | Suite n src ts cs mode =>
      Suite n src ts (List.filter has_tests (map prune cs)) mode
  end.

(** Modelled from the spec: [TestSuite.remove_empty_suites]: "when multiple
    top-level input paths were supplied, direct children of the synthetic
    root are preserved even if empty [...], but pruning still applies
    recursively below that level". *)
Definition remove_empty_suites (suite : t) (preserve_direct_children : bool) : t :=
  if preserve_direct_children
  then Suite (name suite) (source suite) (tests suite) (map prune (suites suite)) (rpa suite)
  else prune suite.
End TestSuite.

(** ** robot.running.builder.settings.TestDefaults *)

(** Modelled from the spec: the defaults scope, "a settings record;
    constructed either empty (root) or as a child derived from a parent
    scope".  [TestDefaults_new None] is [TestDefaults()]. *)
Inductive TestDefaults :=
  | Defaults (parent : option TestDefaults) (settings : list string).

Definition TestDefaults_new (parent : option TestDefaults) : TestDefaults :=
  Defaults parent [].

(** ** robot.running.builder.parsers.Parser *)

(** The parser capability: [parse_suite_file(source, defaults)] and
    [parse_init_file(source, defaults)].  Parsing an init file fills in the
    directory's own defaults, so that call also yields the defaults object
    as the parser leaves it. *)
Record Parser := {
  parse_suite_file : option Path -> TestDefaults -> result TestSuite.t;
  parse_init_file : option Path -> TestDefaults -> result (TestSuite.t * TestDefaults)
}.

(** ** robot.parsing.SuiteStructure *)

Module SuiteStructure.
(** Modelled from the spec: the structure node, "tagged as File{source,
    extension} or Directory{source, optional init-file source, child nodes,
    is-multi-source flag}", with the [extension] attribute that
    [_build_suite_directory] reads from a directory node. *)
Inductive t :=
  | SuiteFile (file_source : Path) (file_extension : option string)
  | SuiteDirectory (dir_source : option Path) (dir_init_file : option Path)
      (dir_extension : option string) (dir_is_multi_source : bool)
      (dir_children : list t).

Definition source (s : t) : option Path :=
  match s with
  | SuiteFile src _ => Some src
  | SuiteDirectory src _ _ _ _ => src
  end.

Definition init_file (s : t) : option Path :=
  match s with
  | SuiteFile _ _ => None
  | SuiteDirectory _ init _ _ _ => init
  end.

Definition extension (s : t) : option string :=
  match s with
  | SuiteFile _ ext => ext
  | SuiteDirectory _ _ ext _ _ => ext
  end.

Definition is_multi_source (s : t) : bool :=
  match s with
  | SuiteFile _ _ => false
  | SuiteDirectory _ _ _ multi _ => multi
  end.

Definition children (s : t) : list t :=
  match s with
  | SuiteFile _ _ => []
  | SuiteDirectory _ _ _ _ cs => cs
  end.
End SuiteStructure.
Export SuiteStructure (SuiteFile, SuiteDirectory).

(** ** The object store *)

(** A [TestSuite] object: as [TestSuite.t], with its child suites held by
    reference. *)
Record SuiteObject := Object {
  o_name : string;
  o_source : option Path;
  o_tests : list string;
  o_suites : list nat;
  o_rpa : option bool
}.

Abbreviation store := (list SuiteObject).

(** The objects of a suite a parser created, laid out from address [base]
    on: the suite itself, then the objects of each child in turn.  Lemma
    [read_suite_allocate] reads the suite back from them. *)
Fixpoint objects (suite : TestSuite.t) (base : nat) : list SuiteObject :=
  match suite with
  | TestSuite.Suite n src ts cs mode =>
      let fix go (cs : list TestSuite.t) (base : nat) : list nat * list SuiteObject :=
        match cs with
        | [] => ([], [])
        | c :: cs' =>
            let cells := objects c base in
            let '(refs, rest) := go cs' (base + length cells) in
            (base :: refs, cells ++ rest)
        end in
      let '(refs, cells) := go cs (S base) in
      Object n src ts refs mode :: cells
  end.

(** A suite returned by a parser enters the store; its reference is the
    first free address. *)
Definition allocate (suite : TestSuite.t) (heap : store) : store * nat :=
  (heap ++ objects suite (length heap), length heap).

(** [parent.suites.append(child)]. *)
Definition append_suite (child : nat) (o : SuiteObject) : SuiteObject :=
  Object (o_name o) (o_source o) (o_tests o) (o_suites o ++ [child]) (o_rpa o).

(** [suite.rpa = mode]. *)
Definition assign_rpa (mode : option bool) (o : SuiteObject) : SuiteObject :=
  Object (o_name o) (o_source o) (o_tests o) (o_suites o) mode.

(** Sequencing of [option] computations over a list. *)
Fixpoint traverse {A B} (f : A -> option B) (l : list A) : option (list B) :=
  match l with
  | [] => Some []
  | a :: l' =>
      match f a, traverse f l' with
      | Some b, Some bs => Some (b :: bs)
      | _, _ => None
      end
  end.

(** The suite tree that a reference denotes.  [fuel] bounds the depth that is
    followed; [read_suite_total] shows the size of the store is enough for
    every store the visitor builds. *)
Fixpoint read_suite (fuel : nat) (heap : store) (ref : nat) : option TestSuite.t :=
  match fuel with
  | 0 => None
  | S fuel' =>
      match heap !! ref with
      | None => None
      | Some o =>
          match traverse (read_suite fuel' heap) (o_suites o) with
          | None => None
          | Some cs =>
              Some (TestSuite.Suite (o_name o) (o_source o) (o_tests o) cs (o_rpa o))
          end
      end
  end.

(** ** SuiteStructureParser *)

Module SuiteStructureParser.
(** The visitor's attributes, and the store its suites live in. *)
Record t := Self {
  parsers : dict (option string) Parser;
  rpa : option bool;
  _rpa_given : bool;
  suite : option nat;
  _stack : list (nat * TestDefaults);
  heap : store
}.

(** [_stack] is a Python list used as a stack: [append] pushes, [pop]
    pops, [_stack[-1]] is the top.  The head of the Rocq list is the top. *)

Definition with_rpa (self : t) (mode : option bool) : t :=
  Self (parsers self) mode (_rpa_given self) (suite self) (_stack self) (heap self).
Definition with_suite (self : t) (root : option nat) : t :=
  Self (parsers self) (rpa self) (_rpa_given self) root (_stack self) (heap self).
Definition with_stack (self : t) (stack : list (nat * TestDefaults)) : t :=
  Self (parsers self) (rpa self) (_rpa_given self) (suite self) stack (heap self).
Definition with_heap (self : t) (h : store) : t :=
  Self (parsers self) (rpa self) (_rpa_given self) (suite self) (_stack self) h.

Definition __init__ (parsers : dict (option string) Parser) (rpa : option bool) : t :=
  Self parsers rpa (match rpa with Some _ => true | None => false end) None [] [].

Definition parent_defaults (self : t) : option TestDefaults :=
  match _stack self with
  | (_, defaults) :: _ => Some defaults
  | [] => None
  end.

Definition mode_name (mode : bool) : string :=
  if mode then "tasks" else "tests".

Definition conflict_message (this that : string) : string :=
  "Conflicting execution modes. File has " +:+ this +:+
  " but files parsed earlier have " +:+ that +:+
  ". Fix headers or use '--rpa' or '--norpa' options to set the execution mode explicitly.".

Definition _validate_execution_mode (suite : TestSuite.t) (self : t)
    : result (TestSuite.t * t) :=
  if _rpa_given self then
    Ok (TestSuite.set_rpa suite (rpa self), self)
  else
    match TestSuite.rpa suite with
    | None => Ok (suite, self)
    | Some mode =>
        match rpa self with
        | None => Ok (suite, with_rpa self (Some mode))
        | Some running =>
            if negb (eqb running mode) then
              let '(this, that) :=
                if mode then ("tasks", "tests") else ("tests", "tasks") in
              Raise (DataError (conflict_message this that))
            else Ok (suite, self)
        end
    end.

Definition parsing_failed (source : option Path) (message : string) : string :=
  "Parsing '" +:+ str source +:+ "' failed: " +:+ message.

Definition _build_suite_file (structure : SuiteStructure.t) (self : t)
    : result (TestSuite.t * t) :=
  let source := SuiteStructure.source structure in
  let defaults :=
    match parent_defaults self with
    | Some d => d
    | None => TestDefaults_new None
    end in
  let* parser := getitem (parsers self) (SuiteStructure.extension structure) in
  except_DataError
    (let* suite := parse_suite_file parser source defaults in
     _validate_execution_mode suite self)
    (parsing_failed source).

Definition _build_suite_directory (structure : SuiteStructure.t) (self : t)
    : result (TestSuite.t * TestDefaults) :=
  let source :=
    or_else (SuiteStructure.init_file structure) (SuiteStructure.source structure) in
  let defaults := TestDefaults_new (parent_defaults self) in
  let* parser := getitem (parsers self) (SuiteStructure.extension structure) in
  except_DataError
    (let* '(suite, defaults) := parse_init_file parser source defaults in
     let suite :=
       if SuiteStructure.is_multi_source structure
       then TestSuite.config suite "" None
       else suite in
     Ok (suite, defaults))
    (parsing_failed source).

(** [if self.suite is None: self.suite = suite
     else: self._stack[-1][0].suites.append(suite)] *)
Definition attach (new : TestSuite.t) (self : t) : result (nat * t) :=
  let '(h, ref) := allocate new (heap self) in
  match suite self with
  | None => Ok (ref, with_suite (with_heap self h) (Some ref))
  | Some _ =>
      match _stack self with
      | [] => Raise IndexError
      | (top, _) :: _ =>
          match h !! top with
          | None => Raise SystemError
          | Some _ => Ok (ref, with_heap self (alter (append_suite ref) top h))
          end
      end
  end.

Definition visit_file (structure : SuiteStructure.t) (self : t) : result t :=
  let* '(suite, self) := _build_suite_file structure self in
  let* '(_, self) := attach suite self in
  Ok self.

Definition start_directory (structure : SuiteStructure.t) (self : t) : result t :=
  let* '(suite, defaults) := _build_suite_directory structure self in
  let* '(ref, self) := attach suite self in
  Ok (with_stack self ((ref, defaults) :: _stack self)).

Definition end_directory (structure : SuiteStructure.t) (self : t) : result t :=
  match _stack self with
  | [] => Raise IndexError
  | (suite, _) :: rest =>
      let self := with_stack self rest in
      match heap self !! suite with
      | None => Raise SystemError
      | Some o =>
          match o_rpa o, o_suites o with
          | None, first :: _ =>
              match heap self !! first with
              | None => Raise SystemError
              | Some child =>
                  Ok (with_heap self (alter (assign_rpa (o_rpa child)) suite (heap self)))
              end
          | _, _ => Ok self
          end
      end
  end.

(** Modelled from the spec: [SuiteStructure.visit] and
    [SuiteStructureVisitor.visit_directory], the external walker: "three
    callback events -- enter-file, enter-directory, exit-directory --
    mirroring a depth-first pre/post-order walk". *)
Fixpoint visit (structure : SuiteStructure.t) (self : t) : result t :=
  match structure with
  | SuiteFile _ _ => visit_file structure self
  | SuiteDirectory _ _ _ _ children =>
      let* self := start_directory structure self in
      let* self := foldM visit children self in
      end_directory structure self
  end.

Definition parse (structure : SuiteStructure.t) (self : t) : result TestSuite.t :=
  let* self := visit structure self in
  match suite self with
  | None => Raise AttributeError
  | Some root =>
      let h := alter (assign_rpa (rpa self)) root (heap self) in
      match read_suite (length h) h root with
      | None => Raise SystemError
      | Some tree => Ok tree
      end
  end.
End SuiteStructureParser.

(** ** TestSuiteBuilder *)

(** A custom parser is a [Parser] that declares the extensions it claims. *)
Record CustomParser := {
  as_parser :> Parser;
  extensions : list string
}.

(** [s.lstrip('.')] *)
Fixpoint lstrip_dot (s : string) : string :=
  match s with
  | String "."%char s' => lstrip_dot s'
  | _ => s
  end.

Module TestSuiteBuilder.
Record t := Self {
  standard_parsers : dict string Parser;
  custom_parsers : dict string CustomParser;
  included_suites : list string;
  included_extensions : list string;
  rpa : option bool;
  allow_empty_suite : bool
}.

Section World.
(** What the builder imports from the rest of Robot Framework and from
    the standard library. *)

(** [os.path.normpath], [Path.absolute], [Path.exists], [Path.is_file]
    and [Path.suffix]. *)
Context (normpath : string -> string) (absolute : Path -> Path)
        (path_exists : Path -> bool) (is_file : Path -> bool)
        (suffix : Path -> string).
(** [str.lower], the built-in that lowers every cased character of a
    string. *)
Context (lower : string -> string).
(** [robot.utils.seq2str]. *)
Context (seq2str : list Path -> string).
(** Parser plugins: the objects callers pass in or name,
    [split_args_from_name_or_path], [Importer.import_class_or_module],
    [type_name] and the [CustomParser] constructor, which raises
    [TypeError] on an object of the wrong shape. *)
Context {ParserObject : Type}
        (split_args_from_name_or_path : string -> string * list string)
        (import_class_or_module : string -> list string -> result ParserObject)
        (type_name : ParserObject -> string)
        (CustomParser_new : ParserObject -> result CustomParser).
(** The built-in parsers. *)
Context {Languages : Type}
        (RobotParser RestParser : Languages -> bool -> Parser)
        (JsonParser NoInitFileDirectoryParser : Parser).
(** [SuiteStructureBuilder(extensions, included_suites).build] on the paths. *)
Context (SuiteStructureBuilder_build :
           list string -> list string -> list Path -> result SuiteStructure.t).

(** An element of the [custom_parsers] argument: a name or path, or a
    parser object. *)
Inductive parser_argument :=
  | ByName (name_or_path : string)
  | ByObject (parser : ParserObject).

Definition _get_standard_parsers (lang : Languages) (process_curdir : bool)
    : dict string Parser :=
  let robot_parser := RobotParser lang process_curdir in
  let rest_parser := RestParser lang process_curdir in
  let json_parser := JsonParser in
  [("robot", robot_parser); ("rst", rest_parser); ("rest", rest_parser);
   ("rbt", json_parser); ("json", json_parser)].

Definition importing_failed (name message : string) : string :=
  "Importing parser '" +:+ name +:+ "' failed: " +:+ message.

(** The name a parser argument goes by and the object it stands for. *)
Definition resolve (parser : parser_argument) : result (string * ParserObject) :=
  match parser with
  | ByName name_or_path =>
      let '(name, args) := split_args_from_name_or_path name_or_path in
      let* parser := import_class_or_module name args in
      Ok (name, parser)
  | ByObject parser => Ok (type_name parser, parser)
  end.

(** [for ext in custom_parser.extensions: custom_parsers[ext] = custom_parser] *)
Definition claim (custom_parser : CustomParser) (custom_parsers : dict string CustomParser)
    : dict string CustomParser :=
  fold_left (fun d ext => dict_set ext custom_parser d)
            (extensions custom_parser) custom_parsers.

(** The body of the loop of [_get_custom_parsers]. *)
Definition register (parser : parser_argument) (custom_parsers : dict string CustomParser)
    : result (dict string CustomParser) :=
  let* '(name, parser) := resolve parser in
  let* custom_parser :=
    except_TypeError (CustomParser_new parser) (importing_failed name) in
  Ok (claim custom_parser custom_parsers).

Definition _get_custom_parsers (parsers : list parser_argument)
    : result (dict string CustomParser) :=
  foldM register parsers [].

Definition __init__ (included_suites included_extensions : list string)
    (custom_parsers : list parser_argument) (rpa : option bool) (lang : Languages)
    (allow_empty_suite process_curdir : bool) : result t :=
  let standard_parsers := _get_standard_parsers lang process_curdir in
  let* custom_parsers := _get_custom_parsers custom_parsers in
  Ok (Self standard_parsers custom_parsers included_suites included_extensions
           rpa allow_empty_suite).

Definition _normalize_paths (paths : list string) : result (list Path) :=
  if negb (truthy paths) then
    Raise (DataError "One or more source paths required.")
  else
    let paths := map (fun p => absolute (normpath p)) paths in
    let non_existing := List.filter (fun p => negb (path_exists p)) paths in
    if truthy non_existing then
      Raise (DataError ("Parsing " +:+ seq2str non_existing +:+
                        " failed: File or directory to execute does not exist."))
    else Ok paths.

Definition _get_parsers (self : t) (paths : list Path)
    : result (dict (option string) Parser) :=
  let parsers : dict (option string) Parser :=
    (None, NoInitFileDirectoryParser)
      :: map (fun '(ext, p) => (Some ext, as_parser p)) (custom_parsers self) in
  let* robot_parser := getitem (standard_parsers self) "robot" in
  Ok (fold_left
        (fun parsers ext =>
           let ext := lower (lstrip_dot ext) in
           match dict_get (Some ext) parsers with
           | Some _ => parsers
           | None =>
               dict_set (Some ext)
                 (default robot_parser (dict_get ext (standard_parsers self)))
                 parsers
           end)
        (included_extensions self ++ map suffix (List.filter is_file paths))
        parsers).

Definition no_tests_message (name : string) : string :=
  "Suite '" +:+ name +:+ "' contains no tests or tasks.".

Fixpoint _validate_not_empty (suite : TestSuite.t) (multi_source : bool) : result unit :=
  match suite with
  | TestSuite.Suite _ _ _ children _ =>
      if multi_source then
        (fix each (children : list TestSuite.t) : result unit :=
           match children with
           | [] => Ok tt
           | child :: rest =>
               let* _ := _validate_not_empty child false in
               each rest
           end) children
      else if negb (TestSuite.has_tests suite) then
        Raise (DataError (no_tests_message (TestSuite.name suite)))
      else Ok tt
  end.

Definition build (self : t) (paths : list string) : result TestSuite.t :=
  let* paths := _normalize_paths paths in
  let extensions := included_extensions self ++ dict_keys (custom_parsers self) in
  let* structure := SuiteStructureBuilder_build extensions (included_suites self) paths in
  let* parsers := _get_parsers self paths in
  let* suite :=
    SuiteStructureParser.parse structure
      (SuiteStructureParser.__init__ parsers (rpa self)) in
  let* _ :=
    if negb (truthy (included_suites self)) && negb (allow_empty_suite self)
    then _validate_not_empty suite (1 <? length paths)%nat
    else Ok tt in
  Ok (TestSuite.remove_empty_suites suite (1 <? length paths)%nat).
End World.
End TestSuiteBuilder.

(** ** A small concrete world

    Parsers, a file system and a walker to run the definitions on: a
    directory [/work/suite] with four files, [tests.robot] (mode tests, one
    test), [tasks.robot] (mode tasks, one task), [plain.robot] (no mode, no
    tests) and [broken.robot] (a syntax error). *)
Module Sample.
Definition file_suite (n : string) (p : Path) (ts : list string) (mode : option bool)
    : TestSuite.t :=
  TestSuite.Suite n (Some p) ts [] mode.

Definition robot_parser : Parser := {|
  parse_suite_file source defaults :=
    match source with
    | Some "/work/suite/tests.robot" =>
        Ok (file_suite "Tests" "/work/suite/tests.robot" ["Login works"] (Some false))
    | Some "/work/suite/tasks.robot" =>
        Ok (file_suite "Tasks" "/work/suite/tasks.robot" ["Send report"] (Some true))
    | Some "/work/suite/plain.robot" =>
        Ok (file_suite "Plain" "/work/suite/plain.robot" [] None)
    | _ => Raise (DataError "Invalid syntax.")
    end;
  parse_init_file source defaults :=
    match source with
    | Some "/work/suite/__init__.robot" =>
        Ok (TestSuite.Suite "Suite" source [] [] (Some true),
            match defaults with Defaults parent _ => Defaults parent ["timeout=1s"] end)
    | _ => Raise (DataError "Invalid init file.")
    end
|}.

Definition no_init_parser : Parser := {|
  parse_suite_file source defaults := Raise (TypeError "not a file parser");
  parse_init_file source defaults :=
    Ok (TestSuite.Suite (match source with Some p => p | None => "" end) source [] [] None,
        defaults)
|}.

Definition parsers : dict (option string) Parser :=
  [(None, no_init_parser); (Some "robot", robot_parser)].

Definition file (n : string) : SuiteStructure.t :=
  SuiteFile ("/work/suite/" +:+ n +:+ ".robot") (Some "robot").

Definition directory (files : list string) : SuiteStructure.t :=
  SuiteDirectory (Some "/work/suite") None None false (map file files).

Definition directory_with_init (files : list string) : SuiteStructure.t :=
  SuiteDirectory (Some "/work/suite") (Some "/work/suite/__init__.robot")
    (Some "robot") false (map file files).

Definition multi_source (roots : list SuiteStructure.t) : SuiteStructure.t :=
  SuiteDirectory None None None true roots.

(** A directory whose init file does not parse. *)
Definition other_directory : SuiteStructure.t :=
  SuiteDirectory (Some "/work/other") (Some "/work/other/__init__.robot")
    (Some "robot") false [].

Definition normpath (p : string) : string := p.
Definition absolute (p : Path) : Path := "/work/" +:+ p.
Definition path_exists (p : Path) : bool :=
  bool_decide (p ∈ ["/work/suite"; "/work/suite/tests.robot"; "/work/suite/plain.robot";
                    "/work/other"]).
Definition is_file (p : Path) : bool :=
  bool_decide (p ∈ ["/work/suite/tests.robot"; "/work/suite/plain.robot"]).
Definition suffix (p : Path) : string :=
  if is_file p then ".robot" else EmptyString.

(** Lower case in this world, whose names are ASCII: the letters [A] to
    [Z] are the only cased ones. *)
Definition lower_ascii (c : ascii) : ascii :=
  let n := nat_of_ascii c in
  if (65 <=? n)%nat && (n <=? 90)%nat then ascii_of_nat (n + 32) else c.

Fixpoint lower (s : string) : string :=
  match s with
  | EmptyString => EmptyString
  | String c s' => String (lower_ascii c) (lower s')
  end.

(** ['a', 'b' and 'c'] *)
Fixpoint seq2str (items : list Path) : string :=
  match items with
  | [] => EmptyString
  | [a] => "'" +:+ a +:+ "'"
  | [a; b] => "'" +:+ a +:+ "' and '" +:+ b +:+ "'"
  | a :: rest => "'" +:+ a +:+ "', " +:+ seq2str rest
  end.

(** Plugin objects are known by their class name; only [XyzParser] has the
    shape of a parser. *)
Definition split_args_from_name_or_path (s : string) : string * list string := (s, []).
Definition import_class_or_module (n : string) (args : list string) : result string :=
  Ok n.
Definition type_name (o : string) : string := o.
Definition xyz_parser (claimed : list string) : CustomParser :=
  {| as_parser := robot_parser; extensions := claimed |}.
Definition CustomParser_new (o : string) : result CustomParser :=
  if bool_decide (o = "XyzParser") then Ok (xyz_parser ["xyz"])
  else if bool_decide (o = "XyzJsonParser") then Ok (xyz_parser ["xyz"; "json"])
  else Raise (TypeError ("'" +:+ o +:+ "' does not have mandatory 'parse' method.")).

(** The walker: [/work/suite] holds the files the case at hand needs,
    [/work/other] is an empty directory; several paths go under a
    multi-source root. *)
Definition node (files : list string) (path : Path) : SuiteStructure.t :=
  if bool_decide (path = "/work/other")
  then SuiteDirectory (Some "/work/other") None None false []
  else directory files.

Definition walker (files : list string) (extensions included : list string)
    (paths : list Path) : result SuiteStructure.t :=
  match paths with
  | [path] => Ok (node files path)
  | _ => Ok (multi_source (map (node files) paths))
  end.

Definition builder (included : list string) (mode : option bool) (allow_empty : bool)
    : TestSuiteBuilder.t :=
  TestSuiteBuilder.Self
    [("robot", robot_parser)] [] included [".robot"] mode allow_empty.

Definition build (files : list string) :=
  TestSuiteBuilder.build normpath absolute path_exists is_file suffix lower seq2str
    no_init_parser (walker files).

Definition _get_custom_parsers :=
  TestSuiteBuilder._get_custom_parsers split_args_from_name_or_path
    import_class_or_module type_name CustomParser_new.

(** An importer that does not find [missing.Parser], and a constructor
    that trips over [Weird] objects with something else than a
    [TypeError]. *)
Definition strict_import (n : string) (args : list string) : result string :=
  if bool_decide (n = "missing.Parser")
  then Raise (DataError "Importing parser 'missing.Parser' failed: ModuleNotFoundError")
  else Ok n.

Definition fragile_CustomParser_new (o : string) : result CustomParser :=
  if bool_decide (o = "Weird") then Raise AttributeError else CustomParser_new o.

(** A parser that knows one file and says so plainly about the rest. *)
Definition careful_parser : Parser := {|
  parse_suite_file source defaults :=
    if bool_decide (source = Some "/work/suite/tests.robot")
    then Ok (file_suite "Tests" "/work/suite/tests.robot" ["Login works"] (Some false))
    else Raise (DataError "Invalid syntax.");
  parse_init_file source defaults := Raise (DataError "Invalid init file.")
|}.

Definition careful_parsers : dict (option string) Parser :=
  [(None, no_init_parser); (Some "robot", careful_parser)].

(** A registry whose parser for directories without init file cannot read
    [/work/other]. *)
Definition strict_directory_parser : Parser := {|
  parse_suite_file source defaults := Raise (TypeError "not a file parser");
  parse_init_file source defaults :=
    if bool_decide (source = Some "/work/other")
    then Raise (DataError "Unreadable directory.")
    else parse_init_file no_init_parser source defaults
|}.

Definition strict_parsers : dict (option string) Parser :=
  [(None, strict_directory_parser); (Some "robot", robot_parser)].

(** A parser for reStructuredText that rejects everything. *)
Definition rest_parser : Parser := {|
  parse_suite_file source defaults := Raise (DataError "No reST support.");
  parse_init_file source defaults := Raise (DataError "No reST support.")
|}.

(** A builder with a custom parser for [xyz] and mixed-case, dotted
    included extensions. *)
Definition registry_builder : TestSuiteBuilder.t :=
  TestSuiteBuilder.Self
    [("robot", robot_parser); ("rst", rest_parser)] [("xyz", xyz_parser ["xyz"])]
    [] [".ROBOT"; "..Rst"; "txt"; "XYZ"] None false.

Definition __init__ :=
  TestSuiteBuilder.__init__ split_args_from_name_or_path import_class_or_module
    type_name CustomParser_new
    (fun (_ : unit) (_ : bool) => robot_parser) (fun (_ : unit) (_ : bool) => rest_parser)
    robot_parser.
(** The state when [/work/suite] is left: the directory suite at address
    [0] with the suite of [tasks.robot] at address [1] as its child. *)
Definition leaving_suite (dir_mode : option bool) : SuiteStructureParser.t :=
  SuiteStructureParser.Self parsers (Some true) false (Some 0) [(0, TestDefaults_new None)]
    [Object "/work/suite" (Some "/work/suite") [] [1] dir_mode;
     Object "Tasks" (Some "/work/suite/tasks.robot") ["Send report"] [] (Some true)].
End Sample.

(** ** Notions the properties are stated with *)

(** Every child reference of an object points forward, inside the store:
    the object graph is a forest. *)
Definition store_wf (h : store) : Prop :=
  forall ref o, h !! ref = Some o ->
    Forall (fun c => ref < c < length h) (o_suites o).

(** The loop of [objects] over the children of a suite. *)
Definition child_objects : list TestSuite.t -> nat -> list nat * list SuiteObject :=
  fix go (cs : list TestSuite.t) (base : nat) : list nat * list SuiteObject :=
    match cs with
    | [] => ([], [])
    | c :: cs' =>
        let cells := objects c base in
        let '(refs, rest) := go cs' (base + length cells) in
        (base :: refs, cells ++ rest)
    end.

(** The cells laid out from [base] on refer forward, inside [len] cells. *)
Definition forward (base len : nat) (cells : list SuiteObject) : Prop :=
  forall i o, cells !! i = Some o ->
    Forall (fun c => base + i < c < base + len) (o_suites o).

(** The mode a traversal settles on: the one it started with, else the
    first one declared. *)
Definition first_mode (running : option bool) (declared : list bool) : option bool :=
  match running with
  | Some mode => Some mode
  | None => head declared
  end.

Module Visitor.
Import SuiteStructureParser.

(** The visitor's references are live, and a directory is open only under
    an established root. *)
Record wf (self : t) : Prop := {
  wf_store : store_wf (heap self);
  wf_stack : Forall (fun frame => frame.1 < length (heap self)) (_stack self);
  wf_suite : forall root, suite self = Some root -> root < length (heap self);
  wf_root : _stack self <> [] -> suite self <> None
}.

(** A node can be attached: it becomes the root, or there is an open
    directory to append it to. *)
Definition attachable (self : t) : Prop :=
  suite self = None \/ _stack self <> [].

(** The defaults a file is parsed with. *)
Definition file_defaults (self : t) : TestDefaults :=
  match parent_defaults self with
  | Some d => d
  | None => TestDefaults_new None
  end.

(** [visits root self node self']: while [root] is visited from state
    [self], the walker comes to visit [node], in state [self']. *)
Inductive visits : SuiteStructure.t -> t -> SuiteStructure.t -> t -> Prop :=
  | visits_here structure self :
      visits structure self structure self
  | visits_child src init ext multi before child after self self1 self2 node self' :
      start_directory (SuiteDirectory src init ext multi (before ++ child :: after)) self
        = Ok self1 ->
      foldM visit before self1 = Ok self2 ->
      visits child self2 node self' ->
      visits (SuiteDirectory src init ext multi (before ++ child :: after)) self node self'.

(** The execution modes that the files of a structure declare, in
    traversal order, [pd] being the defaults of the enclosing directory. *)
Fixpoint declared_modes (ps : dict (option string) Parser) (pd : option TestDefaults)
    (structure : SuiteStructure.t) : list bool :=
  match structure with
  | SuiteFile src ext =>
      match dict_get ext ps with
      | Some parser =>
          match parse_suite_file parser (Some src)
                  (match pd with Some d => d | None => TestDefaults_new None end) with
          | Ok suite =>
              match TestSuite.rpa suite with
              | Some mode => [mode]
              | None => []
              end
          | Raise _ => []
          end
      | None => []
      end
  | SuiteDirectory src init ext multi children =>
      match dict_get ext ps with
      | Some parser =>
          match parse_init_file parser (or_else init src) (TestDefaults_new pd) with
          | Ok (_, defaults) =>
              flat_map (declared_modes ps (Some defaults)) children
          | Raise _ => []
          end
      | None => []
      end
  end.

(** Every parser looked up during the traversal is registered and every
    parser call returns a suite. *)
Fixpoint parsers_succeed (ps : dict (option string) Parser) (pd : option TestDefaults)
    (structure : SuiteStructure.t) : bool :=
  match structure with
  | SuiteFile src ext =>
      match dict_get ext ps with
      | Some parser =>
          match parse_suite_file parser (Some src)
                  (match pd with Some d => d | None => TestDefaults_new None end) with
          | Ok _ => true
          | Raise _ => false
          end
      | None => false
      end
  | SuiteDirectory src init ext multi children =>
      match dict_get ext ps with
      | Some parser =>
          match parse_init_file parser (or_else init src) (TestDefaults_new pd) with
          | Ok (_, defaults) => forallb (parsers_succeed ps (Some defaults)) children
          | Raise _ => false
          end
      | None => false
      end
  end.
(** The attributes a callback does not assign. *)
Definition same_setup (self self' : t) : Prop :=
  parsers self' = parsers self /\ _rpa_given self' = _rpa_given self.

#[global] Instance same_setup_refl : Reflexive same_setup.
Proof. intros self. split; reflexivity. Qed.

#[global] Instance same_setup_trans : Transitive same_setup.
Proof. intros a b c [H1 H2] [H3 H4]. split; congruence. Qed.

(** A step that keeps the references live. *)
Definition keeps_wf (self self' : t) : Prop := wf self -> wf self'.

#[global] Instance keeps_wf_refl : Reflexive keeps_wf.
Proof. intros self H. exact H. Qed.

#[global] Instance keeps_wf_trans : Transitive keeps_wf.
Proof. intros a b c H1 H2 H. exact (H2 (H1 H)). Qed.

(** The value of [self.rpa] after a step that saw the declarations
    [declared]. *)
Definition reconciled (self : t) (declared : list bool) : option bool :=
  if _rpa_given self then rpa self else first_mode (rpa self) declared.

(** Once established the root stays, and no callback renames an object or
    moves it to another source. *)
Definition keeps_objects (self self' : t) : Prop :=
  (forall root, suite self = Some root -> suite self' = Some root) /\
  (forall ref o, heap self !! ref = Some o ->
     exists o', heap self' !! ref = Some o' /\
       o_name o' = o_name o /\ o_source o' = o_source o).

#[global] Instance keeps_objects_refl : Reflexive keeps_objects.
Proof. intros self. split; eauto. Qed.

#[global] Instance keeps_objects_trans : Transitive keeps_objects.
Proof.
  intros a b c [R1 O1] [R2 O2]. split; [auto|].
  intros ref o Ho. destruct (O1 ref o Ho) as (o1 & Ho1 & Hn1 & Hs1).
  destruct (O2 ref o1 Ho1) as (o2 & Ho2 & Hn2 & Hs2).
  exists o2. split; [exact Ho2 | split; congruence].
Qed.
End Visitor.

Module Builder.
Section World.
Context (normpath : string -> string) (absolute : Path -> Path)
        (path_exists : Path -> bool) (is_file : Path -> bool)
        (suffix : Path -> string).
Context (lower : string -> string).
Context (seq2str : list Path -> string).
Context (NoInitFileDirectoryParser : Parser).
Context (SuiteStructureBuilder_build :
           list string -> list string -> list Path -> result SuiteStructure.t).

(** The stages of [build] up to the finished, not yet validated suite: the
    normalized paths and the suite [parse] returns. *)
Definition parsed (self : TestSuiteBuilder.t) (paths : list string)
    : result (list Path * TestSuite.t) :=
  let* paths := TestSuiteBuilder._normalize_paths normpath absolute path_exists seq2str paths in
  let* structure :=
    SuiteStructureBuilder_build
      (TestSuiteBuilder.included_extensions self
         ++ dict_keys (TestSuiteBuilder.custom_parsers self))
      (TestSuiteBuilder.included_suites self) paths in
  let* parsers :=
    TestSuiteBuilder._get_parsers is_file suffix lower NoInitFileDirectoryParser self paths in
  let* suite :=
    SuiteStructureParser.parse structure
      (SuiteStructureParser.__init__ parsers (TestSuiteBuilder.rpa self)) in
  Ok (paths, suite).

(** [build] gets as far as parsing [structure] with the parsers [ps]: the
    paths are valid, the walker returns [structure] for them and
    [_get_parsers] returns [ps]. *)
Definition parses (self : TestSuiteBuilder.t) (paths : list string)
    (structure : SuiteStructure.t) (ps : dict (option string) Parser) : Prop :=
  exists paths',
    TestSuiteBuilder._normalize_paths normpath absolute path_exists seq2str paths
      = Ok paths' /\
    SuiteStructureBuilder_build
      (TestSuiteBuilder.included_extensions self
         ++ dict_keys (TestSuiteBuilder.custom_parsers self))
      (TestSuiteBuilder.included_suites self) paths' = Ok structure /\
    TestSuiteBuilder._get_parsers is_file suffix lower NoInitFileDirectoryParser self paths'
      = Ok ps.
End World.

(** The loop of [_validate_not_empty] over the direct children. *)
Definition validate_children : list TestSuite.t -> result unit :=
  fix each (children : list TestSuite.t) : result unit :=
    match children with
    | [] => Ok tt
    | child :: rest =>
        let* _ := TestSuiteBuilder._validate_not_empty child false in
        each rest
    end.
End Builder.

(** No suite below the root is empty. *)
Fixpoint pruned (suite : TestSuite.t) : bool :=
  match suite with
  | TestSuite.Suite _ _ _ cs _ =>
      forallb (fun c => TestSuite.has_tests c && pruned c) cs
  end.

(** The exceptions that only a fault of the visitor itself could explain:
    an empty stack, no root, a dangling reference. *)
Definition internal (e : exception) : bool :=
  match e with
  | IndexError | AttributeError | SystemError => true
  | DataError _ | TypeError _ | KeyError => false
  end.

(** A parser that raises none of them. *)
Definition well_behaved (parser : Parser) : Prop :=
  (forall source defaults e,
     parse_suite_file parser source defaults = Raise e -> internal e = false) /\
  (forall source defaults e,
     parse_init_file parser source defaults = Raise e -> internal e = false).

(** The running mode is unset or [mode], and [mode] is all that is
    declared. *)
Definition agrees (mode : bool) (running : option bool) (declared : list bool) : Prop :=
  (running = None \/ running = Some mode) /\ Forall (fun m => m = mode) declared.

(** *** The suite a structure stands for

    What the visitor builds node by node in the store, written as a
    recursion on the structure that returns the finished suite of a node
    together with the running mode after it. *)
Module Reference.
Import SuiteStructureParser.

(** [_validate_execution_mode] as a function of the running mode. *)
Definition reconcile (given : bool) (running : option bool) (parsed : TestSuite.t)
    : result (TestSuite.t * option bool) :=
  if given then Ok (TestSuite.set_rpa parsed running, running)
  else
    match TestSuite.rpa parsed with
    | None => Ok (parsed, running)
    | Some mode =>
        match running with
        | None => Ok (parsed, Some mode)
        | Some established =>
            if eqb established mode then Ok (parsed, running)
            else Raise (DataError
                          (conflict_message (mode_name mode) (mode_name established)))
        end
    end.

(** The suite of a file: what its parser returns, reconciled. *)
Definition suite_of_file (ps : dict (option string) Parser) (given : bool)
    (pd : option TestDefaults) (src : Path) (ext : option string) (running : option bool)
    : result (TestSuite.t * option bool) :=
  let* parser := getitem ps ext in
  except_DataError
    (let* parsed :=
       parse_suite_file parser (Some src)
         (match pd with Some d => d | None => TestDefaults_new None end) in
     reconcile given running parsed)
    (parsing_failed (Some src)).

(** The suite of a directory before its children are added, and the
    defaults its children are parsed with. *)
Definition suite_of_init_file (ps : dict (option string) Parser) (pd : option TestDefaults)
    (src init : option Path) (ext : option string) (multi : bool)
    : result (TestSuite.t * TestDefaults) :=
  let* parser := getitem ps ext in
  except_DataError
    (let* '(parsed, defaults) :=
       parse_init_file parser (or_else init src) (TestDefaults_new pd) in
     Ok (if multi then TestSuite.config parsed "" None else parsed, defaults))
    (parsing_failed (or_else init src)).

(** The mode of a directory suite when it is left. *)
Definition inferred (own : option bool) (children : list TestSuite.t) : option bool :=
  match own, children with
  | None, first :: _ => TestSuite.rpa first
  | _, _ => own
  end.

Fixpoint suite_of (ps : dict (option string) Parser) (given : bool)
    (pd : option TestDefaults) (structure : SuiteStructure.t) (running : option bool)
    : result (TestSuite.t * option bool) :=
  match structure with
  | SuiteFile src ext => suite_of_file ps given pd src ext running
  | SuiteDirectory src init ext multi cs =>
      let* '(built, defaults) := suite_of_init_file ps pd src init ext multi in
      let* '(below, running) :=
        (fix each (cs : list SuiteStructure.t) (running : option bool)
           : result (list TestSuite.t * option bool) :=
           match cs with
           | [] => Ok ([], running)
           | c :: cs' =>
               let* '(child, running) := suite_of ps given (Some defaults) c running in
               let* '(rest, running) := each cs' running in
               Ok (child :: rest, running)
           end) cs running in
      let children := TestSuite.suites built ++ below in
      Ok (TestSuite.Suite (TestSuite.name built) (TestSuite.source built)
            (TestSuite.tests built) children
            (inferred (TestSuite.rpa built) children),
          running)
  end.

(** The suites of the children of a directory, in order. *)
Definition suites_of (ps : dict (option string) Parser) (given : bool)
    (pd : option TestDefaults)
    : list SuiteStructure.t -> option bool -> result (list TestSuite.t * option bool) :=
  fix each (cs : list SuiteStructure.t) (running : option bool)
    : result (list TestSuite.t * option bool) :=
    match cs with
    | [] => Ok ([], running)
    | c :: cs' =>
        let* '(child, running) := suite_of ps given pd c running in
        let* '(rest, running) := each cs' running in
        Ok (child :: rest, running)
    end.

(** What [parse] is to return: the suite of the root, with the final
    running mode as its mode. *)
Definition parsed_suite (ps : dict (option string) Parser) (mode : option bool)
    (root : SuiteStructure.t) : result TestSuite.t :=
  let* '(tree, running) :=
    suite_of ps (match mode with Some _ => true | None => false end) None root mode in
  Ok (TestSuite.set_rpa tree running).

(** The store below the address a new suite is attached at: as it was, but
    for the open directory on top of the stack, which gets the new suite
    as a child. *)
Definition prefix (self : t) : store :=
  match suite self, _stack self with
  | Some _, (top, _) :: _ => alter (append_suite (length (heap self))) top (heap self)
  | _, _ => heap self
  end.

(** The visitor after [tree] has been attached as one finished suite, with
    running mode [running]. *)
Definition placed (self : t) (tree : TestSuite.t) (running : option bool) : t :=
  Self (parsers self) running (_rpa_given self)
       (match suite self with
        | Some root => Some root
        | None => Some (length (heap self))
        end)
       (_stack self)
       (prefix self ++ objects tree (length (heap self))).

(** The visitor inside a directory whose suite, with the children seen so
    far, is [tree]. *)
Definition inside (self : t) (defaults : TestDefaults) (tree : TestSuite.t)
    (running : option bool) : t :=
  with_stack (placed self tree running) ((length (heap self), defaults) :: _stack self).
End Reference.

(** ** Results: basic facts *)

Lemma bind_Ok {A B} (r : result A) (k : A -> result B) (b : B) :
  bind r k = Ok b -> exists a, r = Ok a /\ k a = Ok b.
Proof. destruct r as [a|e]; simpl; [eauto | discriminate]. Qed.

Lemma bind_Raise {A B} (r : result A) (k : A -> result B) (e : exception) :
  r = Raise e -> bind r k = Raise e.
Proof. intros ->. reflexivity. Qed.

Lemma except_DataError_Ok {A} (body : result A) handler (a : A) :
  except_DataError body handler = Ok a -> body = Ok a.
Proof. destruct body as [?|[]]; simpl; congruence. Qed.

Lemma foldM_app {A S} (f : A -> S -> result S) (l1 l2 : list A) (s : S) :
  foldM f (l1 ++ l2) s = bind (foldM f l1 s) (foldM f l2).
Proof.
  revert s. induction l1 as [|a l1 IH]; intros s; simpl; [reflexivity|].
  destruct (f a s); simpl; auto.
Qed.

(** A preorder that every step of a loop respects holds across the loop. *)
Lemma foldM_preorder {A S} (f : A -> S -> result S) (R : S -> S -> Prop)
    `{!Reflexive R} `{!Transitive R} (l : list A) :
  Forall (fun a => forall s s', f a s = Ok s' -> R s s') l ->
  forall s s', foldM f l s = Ok s' -> R s s'.
Proof.
  induction 1 as [|a l Ha _ IH]; intros s s' H; simpl in H.
  - injection H as <-. reflexivity.
  - apply bind_Ok in H as (s1 & H1 & H2). transitivity s1; eauto.
Qed.

(** Induction over trees whose children sit in a list. *)
Lemma TestSuite_ind' (P : TestSuite.t -> Prop) :
  (forall n src ts cs mode, Forall P cs -> P (TestSuite.Suite n src ts cs mode)) ->
  forall suite, P suite.
Proof.
  intros step. fix IH 1. intros [n src ts cs mode]. apply step.
  induction cs as [|c cs IHcs]; constructor; [apply IH | exact IHcs].
Qed.

Lemma SuiteStructure_ind' (P : SuiteStructure.t -> Prop) :
  (forall src ext, P (SuiteFile src ext)) ->
  (forall src init ext multi cs, Forall P cs -> P (SuiteDirectory src init ext multi cs)) ->
  forall structure, P structure.
Proof.
  intros file dir. fix IH 1. intros [src ext|src init ext multi cs].
  - apply file.
  - apply dir. induction cs as [|c cs IHcs]; constructor; [apply IH | exact IHcs].
Qed.

(** ** The store: allocation keeps the object graph a forest *)

Lemma objects_unfold n src ts cs mode base :
  objects (TestSuite.Suite n src ts cs mode) base =
  Object n src ts (child_objects cs (S base)).1 mode :: (child_objects cs (S base)).2.
Proof.
  change (objects (TestSuite.Suite n src ts cs mode) base)
    with (let '(refs, cells) := child_objects cs (S base) in
          Object n src ts refs mode :: cells).
  destruct (child_objects cs (S base)); reflexivity.
Qed.

Lemma objects_length_pos suite base : 0 < length (objects suite base).
Proof. destruct suite. rewrite objects_unfold. simpl. lia. Qed.

Lemma forward_app base cells rest :
  forward base (length cells) cells ->
  forward (base + length cells) (length rest) rest ->
  forward base (length (cells ++ rest)) (cells ++ rest).
Proof.
  intros Hc Hr i o Hi. rewrite length_app.
  destruct (decide (i < length cells)) as [Hlt|Hge].
  - rewrite lookup_app_l in Hi by exact Hlt.
    eapply Forall_impl; [exact (Hc i o Hi)|]. simpl. lia.
  - rewrite lookup_app_r in Hi by lia.
    eapply Forall_impl; [exact (Hr _ o Hi)|]. simpl. lia.
Qed.

Lemma child_objects_forward cs :
  Forall (fun c => forall base,
            forward base (length (objects c base)) (objects c base)) cs ->
  forall base,
    Forall (fun c => base <= c < base + length (child_objects cs base).2)
           (child_objects cs base).1 /\
    forward base (length (child_objects cs base).2) (child_objects cs base).2.
Proof.
  induction 1 as [|c cs Hc _ IH]; intros base; simpl.
  - split; [constructor|]. intros i o Hi. discriminate.
  - specialize (IH (base + length (objects c base))).
    destruct (child_objects cs (base + length (objects c base))) as [refs rest].
    simpl in *. destruct IH as [IHrefs IHfwd]. split.
    + pose proof (objects_length_pos c base). rewrite length_app. constructor.
      * lia.
      * eapply Forall_impl; [exact IHrefs|]. simpl. lia.
    + apply forward_app; auto.
Qed.

Lemma objects_forward suite :
  forall base, forward base (length (objects suite base)) (objects suite base).
Proof.
  induction suite as [n src ts cs mode IH] using TestSuite_ind'. intros base.
  rewrite objects_unfold.
  destruct (child_objects_forward cs IH (S base)) as [Hrefs Hfwd].
  intros [|i] o Hi; simpl in Hi.
  - injection Hi as <-. simpl.
    eapply Forall_impl; [exact Hrefs|]. simpl. lia.
  - eapply Forall_impl; [exact (Hfwd i o Hi)|]. simpl. lia.
Qed.

Lemma store_wf_nil : store_wf [].
Proof. intros ref o H. discriminate. Qed.

Lemma store_wf_allocate suite h :
  store_wf h -> store_wf (allocate suite h).1.
Proof.
  intros Hwf ref o Href. unfold allocate in *. simpl in *. rewrite length_app.
  destruct (decide (ref < length h)) as [Hlt|Hge].
  - rewrite lookup_app_l in Href by exact Hlt.
    eapply Forall_impl; [exact (Hwf ref o Href)|]. simpl. lia.
  - rewrite lookup_app_r in Href by lia.
    eapply Forall_impl; [exact (objects_forward suite (length h) _ o Href)|].
    simpl. lia.
Qed.

Lemma store_wf_assign_rpa mode ref h :
  store_wf h -> store_wf (alter (assign_rpa mode) ref h).
Proof.
  intros Hwf r o Hr. rewrite length_alter.
  destruct (decide (ref = r)) as [->|Hne].
  - rewrite list_lookup_alter_eq in Hr.
    destruct (h !! r) as [o'|] eqn:Ho; simpl in Hr; [|discriminate].
    injection Hr as <-. simpl. exact (Hwf r o' Ho).
  - rewrite list_lookup_alter_ne in Hr by exact Hne. exact (Hwf r o Hr).
Qed.

Lemma store_wf_append_suite child parent h :
  store_wf h -> parent < child < length h ->
  store_wf (alter (append_suite child) parent h).
Proof.
  intros Hwf Hchild r o Hr. rewrite length_alter.
  destruct (decide (parent = r)) as [->|Hne].
  - rewrite list_lookup_alter_eq in Hr.
    destruct (h !! r) as [o'|] eqn:Ho; simpl in Hr; [|discriminate].
    injection Hr as <-. simpl. apply Forall_app. split; [exact (Hwf r o' Ho)|].
    constructor; [exact Hchild | constructor].
  - rewrite list_lookup_alter_ne in Hr by exact Hne. exact (Hwf r o Hr).
Qed.

(** ** Reading a suite back from the store *)

Lemma traverse_is_Some {A B} (f : A -> option B) (l : list A) :
  Forall (fun a => is_Some (f a)) l -> is_Some (traverse f l).
Proof.
  induction 1 as [|a l [b Hb] _ [bs Hbs]]; simpl; [eauto|].
  rewrite Hb, Hbs. eauto.
Qed.

(** In a forest, the size of the store is fuel enough to read any suite. *)
Lemma read_suite_enough_fuel h :
  store_wf h ->
  forall fuel ref, ref < length h -> length h - ref <= fuel ->
    is_Some (read_suite fuel h ref).
Proof.
  intros Hwf. induction fuel as [|fuel IH]; intros ref Hlt Hfuel; [lia|].
  simpl. destruct (lookup_lt_is_Some_2 h ref Hlt) as [o Ho]. rewrite Ho.
  destruct (traverse_is_Some (read_suite fuel h) (o_suites o)) as [cs Hcs].
  - eapply Forall_impl; [exact (Hwf ref o Ho)|]. simpl. intros c Hc.
    apply IH; lia.
  - rewrite Hcs. eauto.
Qed.

Lemma read_suite_total h ref :
  store_wf h -> ref < length h -> is_Some (read_suite (length h) h ref).
Proof. intros Hwf Hlt. apply read_suite_enough_fuel; [exact Hwf | exact Hlt | lia]. Qed.

(** The root of the tree read at [ref] carries the fields of the object at
    [ref]. *)
Lemma read_suite_fields fuel h ref tree :
  read_suite fuel h ref = Some tree ->
  exists o, h !! ref = Some o /\
    TestSuite.name tree = o_name o /\ TestSuite.source tree = o_source o /\
    TestSuite.tests tree = o_tests o /\ TestSuite.rpa tree = o_rpa o.
Proof.
  destruct fuel as [|fuel]; simpl; [discriminate|].
  destruct (h !! ref) as [o|]; [|discriminate].
  destruct (traverse _ _); [|discriminate].
  intros [= <-]. exists o. simpl. auto.
Qed.

(** The suite a parser returned is the suite read at the address it was
    allocated at, whatever else the store holds. *)
Lemma read_child_objects cs :
  Forall (fun c => forall (h rest : store) fuel,
            length (objects c (length h)) <= fuel ->
            read_suite fuel (h ++ objects c (length h) ++ rest) (length h) = Some c) cs ->
  forall (h rest : store) fuel,
    length (child_objects cs (length h)).2 <= fuel ->
    traverse (read_suite fuel (h ++ (child_objects cs (length h)).2 ++ rest))
             (child_objects cs (length h)).1 = Some cs.
Proof.
  induction 1 as [|c cs Hc _ IH]; intros h rest fuel Hfuel; simpl; [reflexivity|].
  simpl in Hfuel.
  specialize (IH (h ++ objects c (length h)) rest fuel).
  rewrite length_app in IH.
  destruct (child_objects cs (length h + length (objects c (length h)))) as [refs cells].
  simpl in *. rewrite length_app in Hfuel.
  rewrite <- (app_assoc (objects c (length h)) cells rest).
  rewrite (Hc h (cells ++ rest) fuel) by lia.
  rewrite (app_assoc h (objects c (length h)) (cells ++ rest)).
  rewrite IH by lia. reflexivity.
Qed.

Lemma read_suite_objects suite :
  forall (h rest : store) fuel,
    length (objects suite (length h)) <= fuel ->
    read_suite fuel (h ++ objects suite (length h) ++ rest) (length h) = Some suite.
Proof.
  induction suite as [n src ts cs mode IH] using TestSuite_ind'.
  intros h rest fuel Hfuel. rewrite objects_unfold in *. simpl in Hfuel.
  destruct fuel as [|fuel]; [lia|]. simpl.
  rewrite lookup_app_r by lia. rewrite Nat.sub_diag. simpl.
  pose proof (read_child_objects cs IH (h ++ [Object n src ts
                (child_objects cs (S (length h))).1 mode]) rest fuel) as Hkids.
  rewrite length_app in Hkids. simpl in Hkids. rewrite Nat.add_1_r in Hkids.
  rewrite <- app_assoc in Hkids. simpl in Hkids.
  rewrite Hkids by lia. reflexivity.
Qed.

Lemma read_suite_allocate suite (h : store) :
  read_suite (length (allocate suite h).1) (allocate suite h).1 (allocate suite h).2
    = Some suite.
Proof.
  unfold allocate. simpl.
  rewrite <- (app_nil_r (objects suite (length h))) at 2.
  apply read_suite_objects. rewrite length_app. lia.
Qed.

(** ** The visitor: what each callback leaves alone *)

Section VisitorFrame.
Import SuiteStructureParser Visitor.

Lemma visit_file_eq src ext self :
  visit (SuiteFile src ext) self = visit_file (SuiteFile src ext) self.
Proof. reflexivity. Qed.

Lemma visit_directory_eq src init ext multi cs self :
  visit (SuiteDirectory src init ext multi cs) self =
  bind (start_directory (SuiteDirectory src init ext multi cs) self) (fun self1 =>
  bind (foldM visit cs self1) (fun self2 =>
  end_directory (SuiteDirectory src init ext multi cs) self2)).
Proof. reflexivity. Qed.

Lemma validate_frame suite self suite' self' :
  _validate_execution_mode suite self = Ok (suite', self') ->
  same_setup self self' /\ _stack self' = _stack self /\
  SuiteStructureParser.suite self' = SuiteStructureParser.suite self /\
  heap self' = heap self.
Proof.
  unfold _validate_execution_mode, same_setup. intros H.
  destruct (_rpa_given self) eqn:Hg; [injection H as <- <-; auto|].
  destruct (TestSuite.rpa suite) as [mode|]; [|injection H as <- <-; auto].
  destruct (rpa self) as [running|]; [|injection H as <- <-; simpl; auto].
  destruct (negb (eqb running mode)); [destruct mode; discriminate|].
  injection H as <- <-; auto.
Qed.

Lemma build_suite_file_frame structure self suite' self' :
  _build_suite_file structure self = Ok (suite', self') ->
  same_setup self self' /\ _stack self' = _stack self /\
  suite self' = suite self /\ heap self' = heap self.
Proof.
  unfold _build_suite_file. intros H.
  apply bind_Ok in H as (parser & _ & H).
  apply except_DataError_Ok in H.
  apply bind_Ok in H as (parsed & _ & H).
  exact (validate_frame _ _ _ _ H).
Qed.

Lemma attach_frame new self ref self' :
  attach new self = Ok (ref, self') ->
  same_setup self self' /\ _stack self' = _stack self /\ rpa self' = rpa self /\
  ref = length (heap self) /\ suite self' <> None.
Proof.
  unfold attach, same_setup, allocate. intros H.
  destruct (suite self) as [root|] eqn:Hroot.
  - destruct (_stack self) as [|[top d] rest] eqn:Hstack; [discriminate|].
    destruct (_ !! top); [|discriminate].
    injection H as <- <-. simpl. rewrite Hroot. auto.
  - injection H as <- <-. simpl. auto.
Qed.

Lemma visit_file_frame structure self self' :
  visit_file structure self = Ok self' ->
  same_setup self self' /\ _stack self' = _stack self /\ suite self' <> None.
Proof.
  unfold visit_file. intros H.
  apply bind_Ok in H as ([suite1 self1] & H1 & H).
  apply bind_Ok in H as ([ref self2] & H2 & H). injection H as <-.
  apply build_suite_file_frame in H1 as (Hs1 & Hst1 & _).
  apply attach_frame in H2 as (Hs2 & Hst2 & _ & _ & Hroot).
  split; [etransitivity; eassumption|]. split; [congruence | exact Hroot].
Qed.

Lemma start_directory_frame structure self self' :
  start_directory structure self = Ok self' ->
  same_setup self self' /\ rpa self' = rpa self /\ suite self' <> None /\
  exists suite1 defaults,
    _build_suite_directory structure self = Ok (suite1, defaults) /\
    _stack self' = (length (heap self), defaults) :: _stack self.
Proof.
  unfold start_directory. intros H.
  apply bind_Ok in H as ([suite1 defaults] & H1 & H).
  apply bind_Ok in H as ([ref self2] & H2 & H). injection H as <-.
  apply attach_frame in H2 as (Hs2 & Hst2 & Hrpa & -> & Hroot). simpl.
  repeat split; try apply Hs2; auto.
  exists suite1, defaults. rewrite Hst2. auto.
Qed.

Lemma end_directory_frame structure self self' :
  end_directory structure self = Ok self' ->
  same_setup self self' /\ rpa self' = rpa self /\ suite self' = suite self /\
  exists frame, _stack self = frame :: _stack self'.
Proof.
  unfold end_directory, same_setup. intros H.
  destruct (_stack self) as [|[top d] rest] eqn:Hstack; [discriminate|].
  simpl in H. destruct (heap self !! top) as [o|]; [|discriminate].
  destruct (o_rpa o), (o_suites o) as [|first others];
    try (injection H as <-; simpl; eauto 10).
  destruct (heap self !! first); [|discriminate].
  injection H as <-; simpl; eauto 10.
Qed.

(** A visit assigns neither [parsers] nor [_rpa_given], and leaves the
    stack as it found it. *)
Lemma visit_frame structure :
  forall self self', visit structure self = Ok self' ->
    same_setup self self' /\ _stack self' = _stack self /\ suite self' <> None.
Proof.
  induction structure as [src ext|src init ext multi cs IH] using SuiteStructure_ind';
    intros self self' H.
  - apply visit_file_frame in H. exact H.
  - rewrite visit_directory_eq in H.
    apply bind_Ok in H as (self1 & H1 & H).
    apply bind_Ok in H as (self2 & H2 & H3).
    apply start_directory_frame in H1 as (Hs1 & _ & Hroot1 & s1 & d & _ & Hst1).
    apply end_directory_frame in H3 as (Hs3 & _ & Hroot3 & frame & Hst3).
    assert (same_setup self1 self2 /\ _stack self2 = _stack self1
            /\ suite self2 <> None) as (Hs2 & Hst2 & Hroot2).
    { clear Hst3 Hs3 Hroot3. revert self1 Hs1 Hroot1 Hst1 H2.
      induction IH as [|c cs Hc _ IHcs]; intros self1 Hs1 Hroot1 Hst1 H2; simpl in H2.
      - injection H2 as <-. split; [reflexivity | auto].
      - apply bind_Ok in H2 as (selfc & Hvc & H2).
        destruct (Hc _ _ Hvc) as (Hsc & Hstc & Hrootc).
        destruct (IHcs selfc) as (Hs & Hst & Hroot); auto.
        + etransitivity; eassumption.
        + congruence.
        + split; [etransitivity; eassumption|]. split; [congruence | exact Hroot]. }
    split; [etransitivity; [exact Hs1|]; etransitivity; eassumption|].
    split; [|congruence].
    rewrite Hst2, Hst1 in Hst3. congruence.
Qed.

Lemma visit_children_frame cs :
  forall self self', foldM visit cs self = Ok self' ->
    same_setup self self' /\ _stack self' = _stack self.
Proof.
  induction cs as [|c cs IH]; intros self self' H; simpl in H.
  - injection H as <-. split; [reflexivity | auto].
  - apply bind_Ok in H as (selfc & Hvc & H).
    destruct (visit_frame _ _ _ Hvc) as (Hsc & Hstc & _).
    destruct (IH _ _ H) as (Hs & Hst).
    split; [etransitivity; eassumption | congruence].
Qed.
End VisitorFrame.

(** ** The visitor keeps its references live *)

Section VisitorInvariant.
Import SuiteStructureParser Visitor.

Lemma wf_init ps mode : wf (__init__ ps mode).
Proof.
  split; simpl; [apply store_wf_nil | constructor | discriminate | congruence].
Qed.

Lemma wf_same self self' :
  heap self' = heap self -> _stack self' = _stack self -> suite self' = suite self ->
  wf self -> wf self'.
Proof.
  intros Hh Hst Hroot [H1 H2 H3 H4].
  split; rewrite ?Hh, ?Hst, ?Hroot; assumption.
Qed.

Lemma attach_wf new self ref self' :
  wf self -> attach new self = Ok (ref, self') ->
  wf self' /\ ref < length (heap self').
Proof.
  intros [Hstore Hstack Hsuite Hroot] H. unfold attach in H.
  pose proof (store_wf_allocate new _ Hstore) as Hwf1.
  pose proof (objects_length_pos new (length (heap self))) as Hpos.
  unfold allocate in *. simpl in *.
  assert (Forall (fun frame : nat * TestDefaults =>
                    frame.1 < length (heap self ++ objects new (length (heap self))))
                 (_stack self)) as Hstack1.
  { eapply Forall_impl; [exact Hstack|]. simpl. intros fr Hfr.
    rewrite length_app. lia. }
  destruct (suite self) as [root|] eqn:Hr.
  - destruct (_stack self) as [|[top d] rest] eqn:Hst; [discriminate|].
    destruct (_ !! top) as [o|] eqn:Ho; [|discriminate].
    injection H as <- <-. simpl.
    apply Forall_cons in Hstack as [Htop _]. simpl in Htop.
    split; [split; simpl|].
    + apply store_wf_append_suite; [exact Hwf1|]. rewrite length_app. lia.
    + rewrite length_alter, Hst. exact Hstack1.
    + rewrite Hr. intros root' [= <-]. rewrite length_alter, length_app.
      specialize (Hsuite root eq_refl). lia.
    + rewrite Hr. discriminate.
    + rewrite length_alter, length_app. lia.
  - injection H as <- <-. simpl.
    split; [split; simpl|].
    + exact Hwf1.
    + exact Hstack1.
    + intros root' [= <-]. rewrite length_app. lia.
    + discriminate.
    + rewrite length_app. lia.
Qed.

Lemma attach_succeeds new self :
  wf self -> attachable self ->
  exists self', attach new self = Ok (length (heap self), self').
Proof.
  intros [Hstore Hstack Hsuite Hroot] Hatt. unfold attach, allocate.
  destruct (suite self) as [root|] eqn:Hr; [|eauto].
  destruct Hatt as [Hnone|Hne]; [congruence|].
  destruct (_stack self) as [|[top d] rest] eqn:Hst; [congruence|].
  apply Forall_cons in Hstack as [Htop _]. simpl in Htop.
  destruct (lookup_lt_is_Some_2 (heap self ++ objects new (length (heap self))) top)
    as [o Ho]; [rewrite length_app; lia|].
  rewrite Ho. eauto.
Qed.

Lemma visit_file_wf structure self self' :
  visit_file structure self = Ok self' -> wf self -> wf self'.
Proof.
  unfold visit_file. intros H Hwf.
  apply bind_Ok in H as ([suite1 self1] & H1 & H).
  apply bind_Ok in H as ([ref self2] & H2 & H). injection H as <-.
  apply build_suite_file_frame in H1 as (_ & Hst & Hroot & Hh).
  eapply attach_wf; [|exact H2]. exact (wf_same _ _ Hh Hst Hroot Hwf).
Qed.

Lemma start_directory_wf structure self self' :
  start_directory structure self = Ok self' -> wf self -> wf self'.
Proof.
  unfold start_directory. intros H Hwf.
  apply bind_Ok in H as ([suite1 defaults] & H1 & H).
  apply bind_Ok in H as ([ref self2] & H2 & H). injection H as <-.
  pose proof (attach_frame _ _ _ _ H2) as (_ & _ & _ & _ & Hroot).
  destruct (attach_wf _ _ _ _ Hwf H2) as [[Hs Hst Hsu Hr] Hlt].
  split; simpl; auto.
Qed.

Lemma end_directory_wf structure self self' :
  end_directory structure self = Ok self' -> wf self -> wf self'.
Proof.
  unfold end_directory. intros H [Hs Hst Hsu Hr].
  destruct (_stack self) as [|[top d] rest] eqn:Hstack; [discriminate|].
  apply Forall_cons in Hst as [_ Hrest]. simpl in H.
  assert (suite self <> None) as Hroot by (apply Hr; discriminate).
  destruct (heap self !! top) as [o|]; [|discriminate].
  destruct (o_rpa o), (o_suites o) as [|first others];
    try (injection H as <-; split; simpl; auto; fail).
  destruct (heap self !! first); [|discriminate].
  injection H as <-. split; simpl; rewrite ?length_alter; auto.
  apply store_wf_assign_rpa; exact Hs.
Qed.

Lemma end_directory_succeeds structure self :
  wf self -> _stack self <> [] -> exists self', end_directory structure self = Ok self'.
Proof.
  intros [Hs Hst Hsu Hr] Hne. unfold end_directory.
  destruct (_stack self) as [|[top d] rest] eqn:Hstack; [congruence|].
  apply Forall_cons in Hst as [Htop _]. simpl in *.
  destruct (lookup_lt_is_Some_2 _ _ Htop) as [o Ho]. rewrite Ho.
  destruct (o_rpa o); [destruct (o_suites o); eauto|].
  destruct (o_suites o) as [|first others] eqn:Hkids; [eauto|].
  pose proof (Hs top o Ho) as Hfwd. rewrite Hkids in Hfwd.
  apply Forall_cons in Hfwd as [Hfirst _].
  destruct (lookup_lt_is_Some_2 (heap self) first) as [child Hchild]; [lia|].
  rewrite Hchild. eauto.
Qed.

Lemma visit_wf structure :
  forall self self', visit structure self = Ok self' -> wf self -> wf self'.
Proof.
  induction structure as [src ext|src init ext multi cs IH] using SuiteStructure_ind';
    intros self self' H.
  - exact (visit_file_wf _ _ _ H).
  - rewrite visit_directory_eq in H.
    apply bind_Ok in H as (self1 & H1 & H).
    apply bind_Ok in H as (self2 & H2 & H3).
    intros Hwf. eapply end_directory_wf; [exact H3|].
    eapply (foldM_preorder visit keeps_wf cs IH); [exact H2|].
    eapply start_directory_wf; eassumption.
Qed.

Lemma visit_children_wf cs self self' :
  foldM visit cs self = Ok self' -> wf self -> wf self'.
Proof.
  apply (foldM_preorder visit keeps_wf cs).
  apply Forall_forall. intros c _ s s' H. exact (visit_wf c s s' H).
Qed.
End VisitorInvariant.

(** ** Errors abort the traversal *)

Section VisitorErrors.
Import SuiteStructureParser Visitor.

(** An exception raised where the walker has come to is the outcome of the
    whole visit. *)
Lemma visits_raises root self node self' e :
  visits root self node self' ->
  visit node self' = Raise e ->
  visit root self = Raise e.
Proof.
  induction 1 as [|src init ext multi before child after self self1 self2 node self'
                   Hstart Hbefore _ IH]; intros Hnode; [exact Hnode|].
  rewrite visit_directory_eq, Hstart. simpl.
  rewrite foldM_app, Hbefore. simpl.
  rewrite (IH Hnode). reflexivity.
Qed.

Lemma visits_setup root self node self' :
  visits root self node self' -> same_setup self self'.
Proof.
  induction 1 as [|src init ext multi before child after self self1 self2 node self'
                   Hstart Hbefore _ IH]; [reflexivity|].
  apply start_directory_frame in Hstart as (Hs1 & _).
  apply visit_children_frame in Hbefore as (Hs2 & _).
  etransitivity; [exact Hs1|]. etransitivity; eassumption.
Qed.

Lemma parse_raises structure self e :
  visit structure self = Raise e -> parse structure self = Raise e.
Proof. unfold parse. intros ->. reflexivity. Qed.

Lemma visit_file_raises structure self e :
  _build_suite_file structure self = Raise e -> visit_file structure self = Raise e.
Proof. unfold visit_file. intros ->. reflexivity. Qed.

Lemma start_directory_raises structure self e :
  _build_suite_directory structure self = Raise e ->
  start_directory structure self = Raise e.
Proof. unfold start_directory. intros ->. reflexivity. Qed.

Lemma visit_raises_at_node node self e :
  match node with
  | SuiteFile _ _ => _build_suite_file node self = Raise e
  | SuiteDirectory _ _ _ _ _ => _build_suite_directory node self = Raise e
  end ->
  visit node self = Raise e.
Proof.
  destruct node as [src ext|src init ext multi cs]; intros H.
  - rewrite visit_file_eq. exact (visit_file_raises _ _ _ H).
  - rewrite visit_directory_eq, (start_directory_raises _ _ _ H). reflexivity.
Qed.
End VisitorErrors.

(** ** The running execution mode *)

Lemma first_mode_app running l1 l2 :
  first_mode (first_mode running l1) l2 = first_mode running (l1 ++ l2).
Proof. destruct running, l1; reflexivity. Qed.

Section VisitorMode.
Import SuiteStructureParser Visitor.

Lemma validate_rpa suite self suite' self' :
  _validate_execution_mode suite self = Ok (suite', self') ->
  rpa self' = reconciled self (match TestSuite.rpa suite with
                               | Some mode => [mode]
                               | None => []
                               end).
Proof.
  unfold _validate_execution_mode, reconciled. intros H.
  destruct (_rpa_given self); [injection H as <- <-; reflexivity|].
  destruct (TestSuite.rpa suite) as [mode|].
  - destruct (rpa self) as [running|] eqn:Hrun.
    + destruct (negb (eqb running mode)); [destruct mode; discriminate|].
      injection H as <- <-. exact Hrun.
    + injection H as <- <-. reflexivity.
  - injection H as <- <-. destruct (rpa self); reflexivity.
Qed.

Lemma visit_file_rpa src ext self self' :
  visit_file (SuiteFile src ext) self = Ok self' ->
  rpa self' =
    reconciled self (declared_modes (parsers self) (parent_defaults self) (SuiteFile src ext)).
Proof.
  unfold visit_file, _build_suite_file, getitem. simpl. intros H.
  apply bind_Ok in H as ([suite1 self1] & H1 & H).
  apply bind_Ok in H as ([ref self2] & H2 & H). injection H as <-.
  apply attach_frame in H2 as (_ & _ & -> & _).
  destruct (dict_get ext (parsers self)) as [parser|]; [|discriminate].
  simpl in H1. apply except_DataError_Ok in H1.
  apply bind_Ok in H1 as (parsed & Hparsed & H1).
  rewrite Hparsed. exact (validate_rpa _ _ _ _ H1).
Qed.

Lemma reconciled_step self self' l1 l2 :
  same_setup self self' ->
  rpa self' = reconciled self l1 ->
  reconciled self' l2 = reconciled self (l1 ++ l2).
Proof.
  unfold reconciled. intros [_ ->] ->.
  destruct (_rpa_given self); [reflexivity | apply first_mode_app].
Qed.

Lemma reconciled_nil self : reconciled self [] = rpa self.
Proof. unfold reconciled. destruct (_rpa_given self), (rpa self); reflexivity. Qed.

(** [self.rpa] after a visit: the override if one was given, else the mode
    it had, else the first mode a file of the structure declares. *)
Lemma visit_rpa structure :
  forall self self', visit structure self = Ok self' ->
    rpa self' =
      reconciled self (declared_modes (parsers self) (parent_defaults self) structure).
Proof.
  induction structure as [src ext|src init ext multi cs IH] using SuiteStructure_ind';
    intros self self' H.
  - exact (visit_file_rpa _ _ _ _ H).
  - rewrite visit_directory_eq in H.
    apply bind_Ok in H as (self1 & H1 & H).
    apply bind_Ok in H as (self2 & H2 & H3).
    apply end_directory_frame in H3 as (_ & -> & _).
    apply start_directory_frame in H1 as ([Hps Hgiven] & Hrpa1 & _ & s1 & d & Hbuild & Hst1).
    unfold _build_suite_directory, getitem in Hbuild. simpl in *.
    destruct (dict_get ext (parsers self)) as [parser|]; [|discriminate].
    simpl in Hbuild. apply except_DataError_Ok in Hbuild.
    apply bind_Ok in Hbuild as ([s0 d0] & Hinit & Hcfg). injection Hcfg as _ <-.
    rewrite Hinit.
    assert (rpa self2 = reconciled self1
              (flat_map (declared_modes (parsers self1) (Some d0)) cs)) as ->.
    { assert (parent_defaults self1 = Some d0) as Hpd
        by (unfold parent_defaults; rewrite Hst1; reflexivity).
      clear Hst1 Hinit Hrpa1 Hps Hgiven. revert self1 Hpd H2.
      induction IH as [|c cs Hc _ IHcs]; intros self1 Hpd H2; simpl in H2.
      - injection H2 as <-. simpl. symmetry. apply reconciled_nil.
      - apply bind_Ok in H2 as (selfc & Hvc & H2).
        destruct (visit_frame _ _ _ Hvc) as (Hsc & Hstc & _).
        assert (parent_defaults selfc = Some d0) as Hpdc
          by (unfold parent_defaults in *; rewrite Hstc; exact Hpd).
        rewrite (IHcs selfc Hpdc H2). simpl.
        destruct Hsc as [Hpsc Hgc]. rewrite Hpsc.
        apply reconciled_step; [split; assumption|].
        rewrite <- Hpd. exact (Hc _ _ Hvc). }
    unfold reconciled. rewrite Hps, Hgiven, Hrpa1. reflexivity.
Qed.
End VisitorMode.

(** ** With an override, only a parser can make the traversal fail *)

Section VisitorSuccess.
Import SuiteStructureParser Visitor.

Lemma validate_given suite self :
  _rpa_given self = true ->
  _validate_execution_mode suite self = Ok (TestSuite.set_rpa suite (rpa self), self).
Proof. unfold _validate_execution_mode. intros ->. reflexivity. Qed.

Lemma visit_file_succeeds src ext self :
  wf self -> attachable self -> _rpa_given self = true ->
  parsers_succeed (parsers self) (parent_defaults self) (SuiteFile src ext) = true ->
  exists self', visit_file (SuiteFile src ext) self = Ok self'.
Proof.
  intros Hwf Hatt Hgiven Hps. unfold visit_file, _build_suite_file, getitem.
  simpl in *. destruct (dict_get ext (parsers self)) as [parser|]; [|discriminate].
  simpl. destruct (parse_suite_file parser (Some src) _) as [parsed|]; [|discriminate].
  simpl. rewrite (validate_given _ _ Hgiven). simpl.
  destruct (attach_succeeds (TestSuite.set_rpa parsed (rpa self)) self Hwf Hatt)
    as [self' ->].
  simpl. eauto.
Qed.

Lemma start_directory_succeeds src init ext multi cs self :
  wf self -> attachable self ->
  parsers_succeed (parsers self) (parent_defaults self)
    (SuiteDirectory src init ext multi cs) = true ->
  exists self' defaults,
    start_directory (SuiteDirectory src init ext multi cs) self = Ok self' /\
    parent_defaults self' = Some defaults /\
    forallb (parsers_succeed (parsers self) (Some defaults)) cs = true.
Proof.
  intros Hwf Hatt Hps. unfold start_directory, _build_suite_directory, getitem.
  simpl in *. destruct (dict_get ext (parsers self)) as [parser|]; [|discriminate].
  simpl. destruct (parse_init_file parser _ _) as [[parsed defaults]|]; [|discriminate].
  simpl.
  destruct (attach_succeeds (if multi then TestSuite.config parsed "" None else parsed)
              self Hwf Hatt) as [self' Hattach].
  rewrite Hattach. simpl. eauto.
Qed.

Lemma visit_succeeds structure :
  forall self,
    wf self -> attachable self -> _rpa_given self = true ->
    parsers_succeed (parsers self) (parent_defaults self) structure = true ->
    exists self', visit structure self = Ok self'.
Proof.
  induction structure as [src ext|src init ext multi cs IH] using SuiteStructure_ind';
    intros self Hwf Hatt Hgiven Hps.
  - rewrite visit_file_eq. apply visit_file_succeeds; assumption.
  - rewrite visit_directory_eq.
    destruct (start_directory_succeeds _ _ _ _ _ _ Hwf Hatt Hps)
      as (self1 & defaults & Hstart & Hpd & Hcs).
    rewrite Hstart. simpl.
    pose proof (start_directory_wf _ _ _ Hstart Hwf) as Hwf1.
    apply start_directory_frame in Hstart as ([Hps1 Hg1] & _ & _ & s1 & d1 & _ & Hst1).
    assert (_stack self1 <> []) as Hne1 by (rewrite Hst1; discriminate).
    rewrite <- Hps1, <- Hpd in Hcs. rewrite <- Hg1 in Hgiven.
    clear Hst1 Hpd Hps Hps1 Hg1 Hatt Hwf.
    assert (exists self2, foldM visit cs self1 = Ok self2 /\ wf self2 /\ _stack self2 <> [])
      as (self2 & -> & Hwf2 & Hne2).
    { revert self1 Hwf1 Hne1 Hgiven Hcs.
      induction IH as [|c cs Hc _ IHcs]; intros self1 Hwf1 Hne1 Hgiven Hcs; simpl.
      - eauto.
      - simpl in Hcs. apply andb_true_iff in Hcs as [Hc1 Hcs].
        destruct (Hc self1 Hwf1 (or_intror Hne1) Hgiven Hc1) as [selfc Hvc].
        rewrite Hvc. simpl.
        destruct (visit_frame _ _ _ Hvc) as ([Hpsc Hgc] & Hstc & _).
        apply IHcs.
        + exact (visit_wf _ _ _ Hvc Hwf1).
        + rewrite Hstc. exact Hne1.
        + rewrite Hgc. exact Hgiven.
        + unfold parent_defaults in *. rewrite Hpsc, Hstc. exact Hcs. }
    simpl. apply end_directory_succeeds; assumption.
Qed.

(** After a visit from the initial state the root can be read back. *)
Lemma parse_reads_back structure self self' :
  wf self -> visit structure self = Ok self' ->
  exists root o tree,
    suite self' = Some root /\ heap self' !! root = Some o /\
    parse structure self = Ok tree /\
    TestSuite.name tree = o_name o /\ TestSuite.source tree = o_source o /\
    TestSuite.rpa tree = rpa self'.
Proof.
  intros Hwf Hvisit. pose proof (visit_wf _ _ _ Hvisit Hwf) as [Hs Hst Hsu Hr].
  destruct (visit_frame _ _ _ Hvisit) as (_ & _ & Hroot).
  destruct (suite self') as [root|] eqn:Hsuite; [|congruence].
  specialize (Hsu root eq_refl).
  destruct (lookup_lt_is_Some_2 _ _ Hsu) as [o Ho].
  destruct (read_suite_total (alter (assign_rpa (rpa self')) root (heap self')) root)
    as [tree Htree].
  { apply store_wf_assign_rpa. exact Hs. }
  { rewrite length_alter. exact Hsu. }
  exists root, o, tree. unfold parse. rewrite Hvisit. simpl. rewrite Hsuite, Htree.
  apply read_suite_fields in Htree as (o' & Ho' & Hn & Hsrc & _ & Hrpa).
  rewrite list_lookup_alter_eq, Ho in Ho'. injection Ho' as <-.
  simpl in *. auto 10.
Qed.

Lemma parse_Ok structure self tree :
  parse structure self = Ok tree ->
  exists self', visit structure self = Ok self'.
Proof. unfold parse. intros H. apply bind_Ok in H as (self' & H & _). eauto. Qed.
End VisitorSuccess.

(** ** Objects keep their identity *)

Section VisitorObjects.
Import SuiteStructureParser Visitor.

Lemma alter_keeps_objects (f : SuiteObject -> SuiteObject) at_ (h : store) ref o :
  (forall x, o_name (f x) = o_name x /\ o_source (f x) = o_source x) ->
  h !! ref = Some o ->
  exists o', alter f at_ h !! ref = Some o' /\
    o_name o' = o_name o /\ o_source o' = o_source o.
Proof.
  intros Hf Ho. destruct (decide (at_ = ref)) as [->|Hne].
  - rewrite list_lookup_alter_eq, Ho. simpl. exists (f o). split; [reflexivity | apply Hf].
  - rewrite list_lookup_alter_ne by exact Hne. eauto.
Qed.

Lemma attach_keeps_objects new self ref self' :
  attach new self = Ok (ref, self') -> keeps_objects self self'.
Proof.
  unfold attach, allocate. intros H.
  destruct (suite self) as [root|] eqn:Hroot.
  - destruct (_stack self) as [|[top d] rest]; [discriminate|].
    destruct (_ !! top); [|discriminate]. injection H as <- <-. simpl.
    split; [intros r Hr; simpl; congruence|]. intros r o Ho.
    apply alter_keeps_objects; [intros []; simpl; auto|].
    rewrite lookup_app_l by (eapply lookup_lt_Some; exact Ho). exact Ho.
  - injection H as <- <-. split; [intros r Hr; simpl; congruence|].
    intros r o Ho. simpl. exists o.
    rewrite lookup_app_l by (eapply lookup_lt_Some; exact Ho). auto.
Qed.

(** The object a suite is attached as carries the suite's name and source. *)
Lemma attach_object new self ref self' :
  attach new self = Ok (ref, self') ->
  exists o, heap self' !! ref = Some o /\
    o_name o = TestSuite.name new /\ o_source o = TestSuite.source new.
Proof.
  unfold attach, allocate. intros H.
  assert ((heap self ++ objects new (length (heap self))) !! length (heap self)
          = Some (Object (TestSuite.name new) (TestSuite.source new) (TestSuite.tests new)
                    (child_objects (TestSuite.suites new) (S (length (heap self)))).1
                    (TestSuite.rpa new))) as Hnew.
  { rewrite lookup_app_r by lia. rewrite Nat.sub_diag.
    destruct new. rewrite objects_unfold. reflexivity. }
  destruct (suite self) as [root|].
  - destruct (_stack self) as [|[top d] rest]; [discriminate|].
    destruct (_ !! top); [|discriminate]. injection H as <- <-. simpl.
    destruct (alter_keeps_objects (append_suite (length (heap self))) top _ _ _
                ltac:(intros []; simpl; auto) Hnew) as (o' & Ho' & Hn & Hs).
    exists o'. simpl in *. auto.
  - injection H as <- <-. simpl. rewrite Hnew. eexists. split; [reflexivity|]. auto.
Qed.

Lemma visit_file_keeps_objects structure self self' :
  visit_file structure self = Ok self' -> keeps_objects self self'.
Proof.
  unfold visit_file. intros H.
  apply bind_Ok in H as ([suite1 self1] & H1 & H).
  apply bind_Ok in H as ([ref self2] & H2 & H). injection H as <-.
  apply build_suite_file_frame in H1 as (_ & _ & Hroot & Hh).
  apply attach_keeps_objects in H2 as [R O].
  split; [intros r; rewrite <- Hroot; apply R | intros r o; rewrite <- Hh; apply O].
Qed.

Lemma start_directory_keeps_objects structure self self' :
  start_directory structure self = Ok self' -> keeps_objects self self'.
Proof.
  unfold start_directory. intros H.
  apply bind_Ok in H as ([suite1 defaults] & H1 & H).
  apply bind_Ok in H as ([ref self2] & H2 & H). injection H as <-.
  apply attach_keeps_objects in H2. exact H2.
Qed.

Lemma end_directory_keeps_objects structure self self' :
  end_directory structure self = Ok self' -> keeps_objects self self'.
Proof.
  unfold end_directory. intros H.
  destruct (_stack self) as [|[top d] rest]; [discriminate|]. simpl in H.
  destruct (heap self !! top) as [o|]; [|discriminate].
  destruct (o_rpa o), (o_suites o) as [|first others];
    try (injection H as <-; split; simpl; eauto; fail).
  destruct (heap self !! first); [|discriminate].
  injection H as <-. split; [simpl; auto|]. intros r x Hx. simpl.
  apply alter_keeps_objects; [intros []; simpl; auto | exact Hx].
Qed.

Lemma visit_keeps_objects structure :
  forall self self', visit structure self = Ok self' -> keeps_objects self self'.
Proof.
  induction structure as [src ext|src init ext multi cs IH] using SuiteStructure_ind';
    intros self self' H.
  - exact (visit_file_keeps_objects _ _ _ H).
  - rewrite visit_directory_eq in H.
    apply bind_Ok in H as (self1 & H1 & H).
    apply bind_Ok in H as (self2 & H2 & H3).
    etransitivity; [exact (start_directory_keeps_objects _ _ _ H1)|].
    etransitivity; [|exact (end_directory_keeps_objects _ _ _ H3)].
    exact (foldM_preorder visit keeps_objects cs IH _ _ H2).
Qed.
End VisitorObjects.

Section VisitorModeAlong.
Import SuiteStructureParser Visitor.

Lemma visit_children_rpa cs :
  forall self self', foldM visit cs self = Ok self' ->
    rpa self' =
      reconciled self (flat_map (declared_modes (parsers self) (parent_defaults self)) cs).
Proof.
  induction cs as [|c cs IH]; intros self self' H; simpl in H.
  - injection H as <-. simpl. symmetry. apply reconciled_nil.
  - apply bind_Ok in H as (selfc & Hvc & H).
    destruct (visit_frame _ _ _ Hvc) as (Hsc & Hstc & _).
    rewrite (IH _ _ H). simpl. unfold parent_defaults at 1. rewrite Hstc.
    destruct Hsc as [Hpsc Hgc]. rewrite Hpsc.
    apply reconciled_step; [split; assumption|]. exact (visit_rpa _ _ _ Hvc).
Qed.

(** With an override the running mode is the override wherever the walker
    comes. *)
Lemma visits_given root self node self' :
  visits root self node self' -> _rpa_given self = true -> rpa self' = rpa self.
Proof.
  induction 1 as [|src init ext multi before child after self self1 self2 node self'
                   Hstart Hbefore _ IH]; intros Hgiven; [reflexivity|].
  apply start_directory_frame in Hstart as ([_ Hg1] & Hrpa1 & _).
  pose proof (visit_children_rpa _ _ _ Hbefore) as Hrpa2.
  apply visit_children_frame in Hbefore as ([_ Hg2] & _).
  unfold reconciled in Hrpa2. rewrite Hg1, Hgiven in Hrpa2.
  rewrite IH by congruence. congruence.
Qed.
End VisitorModeAlong.

Lemma alter_insert_lookup {A} (f : A -> A) (l : list A) i x :
  l !! i = Some x -> alter f i l = <[i := f x]> l.
Proof.
  revert i. induction l as [|a l IH]; intros [|i] H; simpl in *; try discriminate.
  - injection H as ->. reflexivity.
  - f_equal. apply IH. exact H.
Qed.

(** ** Properties of the structure visitor *)

Section VisitorProperties.
Import SuiteStructureParser Visitor.

(** A file that declares a mode other than the running one, in a traversal
    without override, makes [parse] fail with the conflict error, prefixed
    with the path of the file. *)
Lemma conflict_at_file ps root src ext self' parser parsed mode running :
  visits root (__init__ ps None) (SuiteFile src ext) self' ->
  dict_get ext ps = Some parser ->
  parse_suite_file parser (Some src) (file_defaults self') = Ok parsed ->
  TestSuite.rpa parsed = Some mode ->
  rpa self' = Some running ->
  running <> mode ->
  parse root (__init__ ps None) =
    Raise (DataError
      (parsing_failed (Some src)
         (conflict_message (mode_name mode) (mode_name running)))).
Proof.
  intros Hvisits Hget Hparsed Hmode Hrunning Hne.
  apply parse_raises. apply (visits_raises _ _ _ _ _ Hvisits).
  rewrite visit_file_eq. apply visit_file_raises.
  destruct (visits_setup _ _ _ _ Hvisits) as [Hps Hgiven]. simpl in Hps, Hgiven.
  unfold _build_suite_file, getitem. simpl. rewrite Hps, Hget. simpl.
  unfold file_defaults in Hparsed. rewrite Hparsed. simpl.
  unfold _validate_execution_mode. rewrite Hgiven, Hmode, Hrunning.
  destruct running, mode; try congruence; reflexivity.
Qed.

(** C2. In a build with an execution-mode override [mode]:
    (1) at every file the walker comes to, [_build_suite_file] returns the
    suite the parser returned with the override as its mode, whatever mode
    the file declared, and its other fields as they were, and raises no
    conflict error;
    (2) whenever the parsers succeed on the nodes of the structure, [parse]
    returns a suite, whatever modes the files declare;
    (3) the root of every suite [parse] returns has the override as its
    mode. *)
Theorem explicit_mode_overrides ps mode root :
  (forall src ext self' parser parsed,
     visits root (__init__ ps (Some mode)) (SuiteFile src ext) self' ->
     dict_get ext ps = Some parser ->
     parse_suite_file parser (Some src) (file_defaults self') = Ok parsed ->
     _build_suite_file (SuiteFile src ext) self' =
       Ok (TestSuite.Suite (TestSuite.name parsed) (TestSuite.source parsed)
             (TestSuite.tests parsed) (TestSuite.suites parsed) (Some mode),
           self')) /\
  (parsers_succeed ps None root = true ->
   exists tree, parse root (__init__ ps (Some mode)) = Ok tree) /\
  (forall tree,
     parse root (__init__ ps (Some mode)) = Ok tree -> TestSuite.rpa tree = Some mode).
Proof.
  split; [|split].
  - intros src ext self' parser parsed Hvisits Hget Hparsed.
    destruct (visits_setup _ _ _ _ Hvisits) as [Hps Hgiven]. simpl in Hps, Hgiven.
    pose proof (visits_given _ _ _ _ Hvisits eq_refl) as Hrpa. simpl in Hrpa.
    unfold _build_suite_file, getitem. simpl. rewrite Hps, Hget. simpl.
    unfold file_defaults in Hparsed. rewrite Hparsed. simpl.
    rewrite (validate_given _ _ Hgiven), Hrpa. reflexivity.
  - intros Hps.
    destruct (visit_succeeds root (__init__ ps (Some mode)) (wf_init _ _)
                (or_introl eq_refl) eq_refl Hps) as [self' Hvisit].
    destruct (parse_reads_back _ _ _ (wf_init _ _) Hvisit)
      as (r & o & tree & _ & _ & Hparse & _).
    eauto.
  - intros tree Hparse. destruct (parse_Ok _ _ _ Hparse) as [self' Hvisit].
    destruct (parse_reads_back _ _ _ (wf_init _ _) Hvisit)
      as (r & o & tree' & _ & _ & Hparse' & _ & _ & Hrpa).
    rewrite Hparse in Hparse'. injection Hparse' as <-.
    rewrite Hrpa, (visit_rpa _ _ _ Hvisit). reflexivity.
Qed.

Lemma explicit_mode_overrides_witness :
  (exists tree,
     parse (Sample.directory ["tests"; "tasks"]) (__init__ Sample.parsers (Some false))
       = Ok tree /\ TestSuite.rpa tree = Some false) /\
  exists self',
    Sample.robot_parser.(parse_suite_file) (Some "/work/suite/tasks.robot")
      (file_defaults self') =
      Ok (Sample.file_suite "Tasks" "/work/suite/tasks.robot" ["Send report"] (Some true)) /\
    _build_suite_file (Sample.file "tasks") self' =
      Ok (Sample.file_suite "Tasks" "/work/suite/tasks.robot" ["Send report"] (Some false),
          self').
Proof.
  pose proof (explicit_mode_overrides Sample.parsers false
                (Sample.directory ["tests"; "tasks"])) as (Hfile & Hreturns & Hroot).
  split.
  - destruct (Hreturns eq_refl) as [tree Htree]. exists tree. split; [exact Htree|].
    exact (Hroot tree Htree).
  - eexists. split; [vm_compute; reflexivity|].
    eapply (Hfile "/work/suite/tasks.robot" (Some "robot") _ Sample.robot_parser
              (Sample.file_suite "Tasks" "/work/suite/tasks.robot" ["Send report"]
                 (Some true))).
    + eapply (visits_child _ _ _ _ [Sample.file "tests"] (Sample.file "tasks") []).
      * vm_compute. reflexivity.
      * vm_compute. reflexivity.
      * apply visits_here.
    + reflexivity.
    + vm_compute. reflexivity.
Defined.

(** C4. A [DataError] that a parser raises for a file or for a directory
    the walker has come to makes [parse] fail with a [DataError] whose
    message is the parser's, prefixed with the source that was being parsed:
    the file's path, or for a directory its init file if it has one, else
    the path of the directory itself ([None] for the root of several
    sources, which has no path). *)
Theorem parse_error_names_source ps mode root node self' parser message :
  visits root (__init__ ps mode) node self' ->
  dict_get (SuiteStructure.extension node) ps = Some parser ->
  match node with
  | SuiteFile src _ =>
      parse_suite_file parser (Some src) (file_defaults self')
        = Raise (DataError message)
  | SuiteDirectory _ (Some init_file) _ _ _ =>
      parse_init_file parser (Some init_file) (TestDefaults_new (parent_defaults self'))
        = Raise (DataError message)
  | SuiteDirectory src None _ _ _ =>
      parse_init_file parser src (TestDefaults_new (parent_defaults self'))
        = Raise (DataError message)
  end ->
  parse root (__init__ ps mode) =
    Raise (DataError
      ("Parsing '" +:+
       match node with
       | SuiteFile src _ => src
       | SuiteDirectory _ (Some init_file) _ _ _ => init_file
       | SuiteDirectory (Some src) None _ _ _ => src
       | SuiteDirectory None None _ _ _ => "None"
       end +:+
       "' failed: " +:+ message)).
Proof.
  intros Hvisits Hget Hfails.
  apply parse_raises. apply (visits_raises _ _ _ _ _ Hvisits).
  apply visit_raises_at_node.
  destruct (visits_setup _ _ _ _ Hvisits) as [Hps _]. simpl in Hps.
  destruct node as [src ext|src init ext multi cs]; simpl in Hget.
  - unfold _build_suite_file, getitem. simpl. rewrite Hps, Hget. simpl.
    unfold file_defaults in Hfails. rewrite Hfails. reflexivity.
  - unfold _build_suite_directory, getitem. simpl. rewrite Hps, Hget. simpl.
    destruct init as [init_file|], src as [dir|]; simpl in *; rewrite Hfails;
      reflexivity.
Qed.

Lemma parse_error_names_source_witness :
  parse (Sample.directory ["tests"; "broken"]) (__init__ Sample.parsers None) =
    Raise (DataError "Parsing '/work/suite/broken.robot' failed: Invalid syntax.") /\
  parse Sample.other_directory (__init__ Sample.parsers (Some true)) =
    Raise (DataError "Parsing '/work/other/__init__.robot' failed: Invalid init file.") /\
  parse (Sample.multi_source [Sample.directory ["tests"]; Sample.node [] "/work/other"])
        (__init__ Sample.strict_parsers None) =
    Raise (DataError "Parsing '/work/other' failed: Unreadable directory.").
Proof.
  split; [|split].
  - eapply (parse_error_names_source Sample.parsers None
              (Sample.directory ["tests"; "broken"]) (Sample.file "broken") _
              Sample.robot_parser "Invalid syntax.").
    + eapply (visits_child _ _ _ _ [Sample.file "tests"] (Sample.file "broken") []).
      * vm_compute. reflexivity.
      * vm_compute. reflexivity.
      * apply visits_here.
    + reflexivity.
    + vm_compute. reflexivity.
  - eapply (parse_error_names_source Sample.parsers (Some true)
              Sample.other_directory Sample.other_directory _
              Sample.robot_parser "Invalid init file.").
    + apply visits_here.
    + reflexivity.
    + vm_compute. reflexivity.
  - eapply (parse_error_names_source Sample.strict_parsers None
              (Sample.multi_source [Sample.directory ["tests"]; Sample.node [] "/work/other"])
              (Sample.node [] "/work/other") _
              Sample.strict_directory_parser "Unreadable directory.").
    + eapply (visits_child _ _ _ _ [Sample.directory ["tests"]]
                (Sample.node [] "/work/other") []).
      * vm_compute. reflexivity.
      * vm_compute. reflexivity.
      * apply visits_here.
    + reflexivity.
    + vm_compute. reflexivity.
Defined.

(** C5. [end_directory] pops the frame of the directory.  If the mode of
    the popped suite is unset and the suite has a child, the suite gets the
    mode of its first child; if its mode is set or it has no child, the
    store is left as it is.  No other object and no other attribute
    changes. *)
Theorem end_directory_infers_mode structure self top defaults rest o :
  _stack self = (top, defaults) :: rest ->
  heap self !! top = Some o ->
  (forall first others child,
     o_rpa o = None -> o_suites o = first :: others ->
     heap self !! first = Some child ->
     end_directory structure self =
       Ok (with_heap (with_stack self rest)
             (<[top := assign_rpa (o_rpa child) o]> (heap self)))) /\
  (o_rpa o <> None \/ o_suites o = [] ->
   end_directory structure self = Ok (with_stack self rest)).
Proof.
  intros Hstack Htop. unfold end_directory. rewrite Hstack. simpl. rewrite Htop. split.
  - intros first others child -> -> Hchild. rewrite Hchild.
    rewrite (alter_insert_lookup _ _ _ _ Htop). reflexivity.
  - intros [Hset| ->].
    + destruct (o_rpa o); [destruct (o_suites o); reflexivity | congruence].
    + destruct (o_rpa o); reflexivity.
Qed.

Lemma end_directory_infers_mode_witness :
  end_directory (Sample.directory ["tasks"]) (Sample.leaving_suite None) =
    Ok (Self Sample.parsers (Some true) false (Some 0) []
          [Object "/work/suite" (Some "/work/suite") [] [1] (Some true);
           Object "Tasks" (Some "/work/suite/tasks.robot") ["Send report"] [] (Some true)]) /\
  end_directory (Sample.directory ["tasks"]) (Sample.leaving_suite (Some false)) =
    Ok (Self Sample.parsers (Some true) false (Some 0) []
          [Object "/work/suite" (Some "/work/suite") [] [1] (Some false);
           Object "Tasks" (Some "/work/suite/tasks.robot") ["Send report"] [] (Some true)]).
Proof.
  split.
  - refine (proj1 (end_directory_infers_mode (Sample.directory ["tasks"]) (Sample.leaving_suite None)
                     0 (TestDefaults_new None) [] _ eq_refl eq_refl)
              1 [] _ eq_refl eq_refl eq_refl).
  - refine (proj2 (end_directory_infers_mode (Sample.directory ["tasks"])
                     (Sample.leaving_suite (Some false))
                     0 (TestDefaults_new None) [] _ eq_refl eq_refl) _).
    left. discriminate.
Defined.

(** C8. The suite [_build_suite_directory] returns for a directory node
    flagged [is_multi_source] has the empty name and no source, whatever the
    parser of its init file made of them; and when such a node is the root
    of the structure, so has the suite [parse] returns. *)
Theorem multi_source_root_is_anonymous :
  (forall structure self built defaults,
     SuiteStructure.is_multi_source structure = true ->
     _build_suite_directory structure self = Ok (built, defaults) ->
     TestSuite.name built = EmptyString /\ TestSuite.source built = None) /\
  (forall ps mode src init ext cs tree,
     parse (SuiteDirectory src init ext true cs) (__init__ ps mode) = Ok tree ->
     TestSuite.name tree = EmptyString /\ TestSuite.source tree = None).
Proof.
  assert (forall structure self built defaults,
     SuiteStructure.is_multi_source structure = true ->
     _build_suite_directory structure self = Ok (built, defaults) ->
     TestSuite.name built = EmptyString /\ TestSuite.source built = None) as Hlocal.
  { intros structure self built defaults Hmulti H.
    unfold _build_suite_directory in H. rewrite Hmulti in H.
    apply bind_Ok in H as (parser & _ & H). apply except_DataError_Ok in H.
    apply bind_Ok in H as ([parsed d] & _ & H). injection H as <- _. auto. }
  split; [exact Hlocal|].
  intros ps mode src init ext cs tree Hparse.
  destruct (parse_Ok _ _ _ Hparse) as [self' Hvisit].
  destruct (parse_reads_back _ _ _ (wf_init _ _) Hvisit)
    as (root & o & tree' & Hroot & Ho & Hparse' & Hname & Hsource & _).
  rewrite Hparse in Hparse'. injection Hparse' as <-.
  rewrite visit_directory_eq in Hvisit.
  apply bind_Ok in Hvisit as (self1 & Hstart & Hrest).
  assert (keeps_objects self1 self') as [Hkeep_root Hkeep].
  { apply bind_Ok in Hrest as (self2 & Hchildren & Hend).
    etransitivity; [|exact (end_directory_keeps_objects _ _ _ Hend)].
    apply (foldM_preorder visit keeps_objects cs); [|exact Hchildren].
    apply Forall_forall. intros c _ s s' H. exact (visit_keeps_objects c s s' H). }
  unfold start_directory in Hstart.
  apply bind_Ok in Hstart as ([built defaults] & Hbuilt & Hstart).
  apply bind_Ok in Hstart as ([ref self0] & Hattach & Hstart). injection Hstart as <-.
  destruct (Hlocal (SuiteDirectory src init ext true cs) _ _ _ eq_refl Hbuilt) as [Hbn Hbs].
  destruct (attach_object _ _ _ _ Hattach) as (o0 & Ho0 & Hn0 & Hs0).
  assert (suite self0 = Some ref) as Hroot0.
  { unfold attach, allocate in Hattach. simpl in Hattach. injection Hattach as <- <-.
    reflexivity. }
  specialize (Hkeep_root ref Hroot0). simpl in Hkeep_root.
  rewrite Hroot in Hkeep_root. injection Hkeep_root as ->.
  destruct (Hkeep ref o0 Ho0) as (o' & Ho' & Hn' & Hs').
  rewrite Ho in Ho'. injection Ho' as <-. split; congruence.
Qed.

Lemma multi_source_root_is_anonymous_witness :
  exists tree,
    parse (Sample.multi_source [Sample.directory ["plain"]; Sample.directory ["tests"]])
          (__init__ Sample.parsers None) = Ok tree /\
    TestSuite.name tree = EmptyString /\ TestSuite.source tree = None.
Proof.
  eexists. split; [vm_compute; reflexivity|].
  apply (proj2 multi_source_root_is_anonymous Sample.parsers None None None None
           [Sample.directory ["plain"]; Sample.directory ["tests"]]).
  vm_compute. reflexivity.
Defined.

(** C10. When the traversal completes, [parse] returns a suite whose root
    has the visitor's running mode, with or without an override: the
    override if one was given, else the first mode that a file declares in
    traversal order, else none.  The mode the root suite had from its own
    init file or from its first child does not enter into it. *)
Theorem parse_assigns_running_mode ps mode root self' :
  visit root (__init__ ps mode) = Ok self' ->
  exists tree,
    parse root (__init__ ps mode) = Ok tree /\
    TestSuite.rpa tree = rpa self' /\
    TestSuite.rpa tree =
      match mode with
      | Some override => Some override
      | None => head (declared_modes ps None root)
      end.
Proof.
  intros Hvisit.
  destruct (parse_reads_back _ _ _ (wf_init _ _) Hvisit)
    as (r & o & tree & _ & _ & Hparse & _ & _ & Hrpa).
  exists tree. split; [exact Hparse|]. split; [exact Hrpa|].
  rewrite Hrpa, (visit_rpa _ _ _ Hvisit). destruct mode; reflexivity.
Qed.

Lemma parse_assigns_running_mode_witness :
  exists tree,
    parse (Sample.directory_with_init ["plain"; "tests"]) (__init__ Sample.parsers None)
      = Ok tree /\
    TestSuite.rpa tree = Some false.
Proof.
  destruct (parse_assigns_running_mode Sample.parsers None
              (Sample.directory_with_init ["plain"; "tests"]) _
              ltac:(vm_compute; reflexivity)) as (tree & Hparse & _ & Hmode).
  exists tree. split; [exact Hparse | exact Hmode].
Defined.
End VisitorProperties.

(** ** Dictionaries: reading after writing *)

Section DictFacts.
Context {K V : Type} `{EqDecision K}.
Implicit Types (d : dict K V) (k : K) (v : V).

Lemma dict_get_set_eq k v d : dict_get k (dict_set k v d) = Some v.
Proof.
  induction d as [|[k' v'] d IH]; simpl.
  - destruct (decide (k = k)); congruence.
  - destruct (decide (k = k')) as [->|Hne]; simpl.
    + destruct (decide (k' = k')); congruence.
    + destruct (decide (k = k')); [congruence | exact IH].
Qed.

Lemma dict_get_set_ne k k' v d :
  k <> k' -> dict_get k' (dict_set k v d) = dict_get k' d.
Proof.
  intros Hne. induction d as [|[k0 v0] d IH]; simpl.
  - destruct (decide (k' = k)); congruence.
  - destruct (decide (k = k0)) as [->|Hne0]; simpl.
    + destruct (decide (k' = k0)); congruence.
    + destruct (decide (k' = k0)); [reflexivity | exact IH].
Qed.
End DictFacts.

(** ** Pruning *)

Lemma existsb_filter {A} (f : A -> bool) (l : list A) :
  existsb f (List.filter f l) = existsb f l.
Proof.
  induction l as [|a l IH]; simpl; [reflexivity|].
  destruct (f a) eqn:Ha; simpl; rewrite ?Ha; simpl; auto.
Qed.

Lemma has_tests_prune suite :
  TestSuite.has_tests (TestSuite.prune suite) = TestSuite.has_tests suite.
Proof.
  induction suite as [n src ts cs mode IH] using TestSuite_ind'. simpl.
  destruct ts; [|reflexivity]. rewrite existsb_filter.
  induction IH as [|c cs Hc _ IHcs]; simpl; [reflexivity|].
  rewrite Hc, IHcs. reflexivity.
Qed.

(** Below a pruned suite every suite has a test. *)
Lemma pruned_prune suite : pruned (TestSuite.prune suite) = true.
Proof.
  induction suite as [n src ts cs mode IH] using TestSuite_ind'. simpl.
  induction IH as [|c cs Hc _ IHcs]; simpl; [reflexivity|].
  destruct (TestSuite.has_tests (TestSuite.prune c)) eqn:Hte; simpl; [|exact IHcs].
  rewrite Hte, Hc, IHcs. reflexivity.
Qed.

Lemma remove_empty_suites_pruned suite (preserve : bool) :
  (if preserve
   then forallb pruned (TestSuite.suites (TestSuite.remove_empty_suites suite preserve))
   else pruned (TestSuite.remove_empty_suites suite preserve)) = true.
Proof.
  destruct preserve; simpl; [|apply pruned_prune].
  induction (TestSuite.suites suite) as [|c cs IH]; simpl; [reflexivity|].
  rewrite pruned_prune, IH. reflexivity.
Qed.

(** ** Properties of the builder *)

Section BuilderProperties.
Import TestSuiteBuilder.
Context (normpath : string -> string) (absolute : Path -> Path)
        (path_exists : Path -> bool) (is_file : Path -> bool)
        (suffix : Path -> string).
Context (lower : string -> string).
Context (seq2str : list Path -> string).
Context {ParserObject : Type}
        (split_args_from_name_or_path : string -> string * list string)
        (import_class_or_module : string -> list string -> result ParserObject)
        (type_name : ParserObject -> string)
        (CustomParser_new : ParserObject -> result CustomParser).
Context (NoInitFileDirectoryParser : Parser).
Context (SuiteStructureBuilder_build :
           list string -> list string -> list Path -> result SuiteStructure.t).

Local Abbreviation _normalize_paths :=
  (TestSuiteBuilder._normalize_paths normpath absolute path_exists seq2str).
Local Abbreviation _get_parsers :=
  (TestSuiteBuilder._get_parsers is_file suffix lower NoInitFileDirectoryParser).
Local Abbreviation build :=
  (TestSuiteBuilder.build normpath absolute path_exists is_file suffix lower seq2str
     NoInitFileDirectoryParser SuiteStructureBuilder_build).
Local Abbreviation parsed :=
  (Builder.parsed normpath absolute path_exists is_file suffix lower seq2str
     NoInitFileDirectoryParser SuiteStructureBuilder_build).
Local Abbreviation parses :=
  (Builder.parses normpath absolute path_exists is_file suffix lower seq2str
     NoInitFileDirectoryParser SuiteStructureBuilder_build).
Local Abbreviation validate_children := Builder.validate_children.
Local Abbreviation resolve :=
  (TestSuiteBuilder.resolve split_args_from_name_or_path import_class_or_module type_name).
Local Abbreviation register :=
  (TestSuiteBuilder.register split_args_from_name_or_path import_class_or_module
     type_name CustomParser_new).
Local Abbreviation _get_custom_parsers :=
  (TestSuiteBuilder._get_custom_parsers split_args_from_name_or_path
     import_class_or_module type_name CustomParser_new).


Lemma build_stages self paths :
  build self paths =
    let* '(paths', suite) := parsed self paths in
    let* _ :=
      if negb (truthy (included_suites self)) && negb (allow_empty_suite self)
      then _validate_not_empty suite (1 <? length paths')%nat
      else Ok tt in
    Ok (TestSuite.remove_empty_suites suite (1 <? length paths')%nat).
Proof.
  unfold TestSuiteBuilder.build, parsed.
  destruct (_normalize_paths paths) as [paths'|]; simpl; [|reflexivity].
  destruct (SuiteStructureBuilder_build _ _ _); simpl; [|reflexivity].
  destruct (_get_parsers self paths'); simpl; [|reflexivity].
  destruct (SuiteStructureParser.parse _ _); reflexivity.
Qed.

Lemma normalize_paths_length paths paths' :
  _normalize_paths paths = Ok paths' -> length paths' = length paths.
Proof.
  unfold TestSuiteBuilder._normalize_paths.
  destruct (negb (truthy paths)); [discriminate|].
  destruct (truthy _); [discriminate|]. intros [= <-]. apply length_map.
Qed.

Lemma parsed_length self paths paths' suite :
  parsed self paths = Ok (paths', suite) -> length paths' = length paths.
Proof.
  unfold parsed. intros H. apply bind_Ok in H as (ps & Hnorm & H).
  apply bind_Ok in H as (st & _ & H). apply bind_Ok in H as (pa & _ & H).
  apply bind_Ok in H as (su & _ & H). injection H as <- _.
  exact (normalize_paths_length _ _ Hnorm).
Qed.

(** What [parse] raises, [build] raises. *)
Lemma build_raises self paths structure ps e :
  parses self paths structure ps ->
  SuiteStructureParser.parse structure
    (SuiteStructureParser.__init__ ps (rpa self)) = Raise e ->
  build self paths = Raise e.
Proof.
  intros (paths' & Hnorm & Hwalk & Hps) Hparse.
  unfold TestSuiteBuilder.build. rewrite Hnorm. simpl. rewrite Hwalk. simpl.
  rewrite Hps. simpl. rewrite Hparse. reflexivity.
Qed.

(** C1. In a build without an execution-mode override, a file that
    declares a mode other than the one established by the files parsed
    before it makes the build fail: the walker has come to the file
    ([visits]), its parser returns a suite with mode [mode], the running
    mode is [running], and the two differ.  Then [parse] raises, and every
    [build] without override that parses this structure raises, a
    [DataError] that names the file's mode and then the established one,
    tells to fix the headers or to set the mode explicitly, and (being
    raised inside [_build_suite_file]) is prefixed with the file's path. *)
Theorem execution_mode_conflict ps root src ext self' parser parsed mode running :
  Visitor.visits root (SuiteStructureParser.__init__ ps None) (SuiteFile src ext) self' ->
  dict_get ext ps = Some parser ->
  parse_suite_file parser (Some src) (Visitor.file_defaults self') = Ok parsed ->
  TestSuite.rpa parsed = Some mode ->
  SuiteStructureParser.rpa self' = Some running ->
  running <> mode ->
  let failure :=
    Raise (DataError
      ("Parsing '" +:+ src +:+ "' failed: " +:+
       "Conflicting execution modes. File has " +:+
       SuiteStructureParser.mode_name mode +:+
       " but files parsed earlier have " +:+
       SuiteStructureParser.mode_name running +:+
       ". Fix headers or use '--rpa' or '--norpa' options to set the execution mode explicitly.")) in
  SuiteStructureParser.parse root (SuiteStructureParser.__init__ ps None) = failure /\
  forall self paths,
    rpa self = None -> parses self paths root ps -> build self paths = failure.
Proof.
  intros Hvisits Hget Hparsed Hmode Hrunning Hne failure.
  pose proof (conflict_at_file _ _ _ _ _ _ _ _ _ Hvisits Hget Hparsed Hmode Hrunning Hne)
    as Hparse.
  split; [exact Hparse|].
  intros self paths Hnone Hparses. apply (build_raises _ _ _ _ _ Hparses).
  rewrite Hnone. exact Hparse.
Qed.

Lemma validate_multi suite :
  _validate_not_empty suite true = validate_children (TestSuite.suites suite).
Proof. destruct suite. reflexivity. Qed.

Lemma validate_single suite :
  _validate_not_empty suite false =
    if TestSuite.has_tests suite then Ok tt
    else Raise (DataError (no_tests_message (TestSuite.name suite))).
Proof.
  destruct suite as [n src ts cs mode]. simpl.
  destruct ts; [destruct (existsb TestSuite.has_tests cs)|]; reflexivity.
Qed.

Lemma validate_children_ok children :
  Forall (fun c => TestSuite.has_tests c = true) children ->
  validate_children children = Ok tt.
Proof.
  induction 1 as [|c cs Hc _ IH]; simpl; [reflexivity|].
  rewrite validate_single, Hc. simpl. exact IH.
Qed.

Lemma validate_children_first_empty before child after :
  Forall (fun c => TestSuite.has_tests c = true) before ->
  TestSuite.has_tests child = false ->
  validate_children (before ++ child :: after) =
    Raise (DataError (no_tests_message (TestSuite.name child))).
Proof.
  intros Hbefore Hchild. induction Hbefore as [|c cs Hc _ IH]; simpl.
  - rewrite validate_single, Hchild. reflexivity.
  - rewrite validate_single, Hc. simpl. exact IH.
Qed.

(** C6. Let the stages of [build] before validation yield [suite].  If the
    caller gave suite-name filters or allowed empty suites, validation is
    skipped and [build] returns the (pruned) suite whether or not it has
    tests.  Otherwise, with one path the root must contain a test or task,
    and with several paths each direct child of the root must; [build]
    fails with a [DataError] naming the root, or the first direct child,
    that contains none. *)
Theorem non_empty_validation self paths paths' suite :
  parsed self paths = Ok (paths', suite) ->
  let multi_source := (1 <? length paths)%nat in
  let finished := Ok (TestSuite.remove_empty_suites suite multi_source) in
  (included_suites self <> [] \/ allow_empty_suite self = true ->
   build self paths = finished) /\
  (included_suites self = [] -> allow_empty_suite self = false ->
   (length paths <= 1 ->
    (TestSuite.has_tests suite = true -> build self paths = finished) /\
    (TestSuite.has_tests suite = false ->
     build self paths =
       Raise (DataError ("Suite '" +:+ TestSuite.name suite +:+
                         "' contains no tests or tasks.")))) /\
   (1 < length paths ->
    (Forall (fun c => TestSuite.has_tests c = true) (TestSuite.suites suite) ->
     build self paths = finished) /\
    (forall before child after,
       TestSuite.suites suite = before ++ child :: after ->
       Forall (fun c => TestSuite.has_tests c = true) before ->
       TestSuite.has_tests child = false ->
       build self paths =
         Raise (DataError ("Suite '" +:+ TestSuite.name child +:+
                           "' contains no tests or tasks."))))).
Proof.
  intros Hparsed multi_source finished. subst multi_source finished.
  rewrite build_stages, Hparsed. simpl. rewrite (parsed_length _ _ _ _ Hparsed).
  split.
  - intros [Hfilter | ->].
    + destruct (included_suites self); [congruence | reflexivity].
    + rewrite andb_false_r. reflexivity.
  - intros -> ->. simpl. split.
    + intros Hle. apply Nat.ltb_ge in Hle. rewrite Hle, validate_single.
      split; intros ->; reflexivity.
    + intros Hlt. apply Nat.ltb_lt in Hlt. rewrite Hlt, validate_multi. split.
      * intros Hall. rewrite (validate_children_ok _ Hall). reflexivity.
      * intros before child after -> Hbefore Hchild.
        rewrite (validate_children_first_empty _ _ _ Hbefore Hchild). reflexivity.
Qed.

(** C7, as the code has it.  [build] prunes on every build: the suite it
    returns is the parsed suite with [remove_empty_suites] applied, under
    every configuration of the builder, and so holds no empty suite below
    the root (below the root's direct children when several paths were
    given). *)
Theorem build_always_prunes self paths tree :
  build self paths = Ok tree ->
  (exists paths' suite,
     parsed self paths = Ok (paths', suite) /\
     tree = TestSuite.remove_empty_suites suite (1 <? length paths)%nat) /\
  (if (1 <? length paths)%nat
   then forallb pruned (TestSuite.suites tree)
   else pruned tree) = true.
Proof.
  rewrite build_stages. intros H.
  apply bind_Ok in H as ([paths' suite] & Hparsed & H).
  apply bind_Ok in H as (u & _ & H). injection H as <-.
  rewrite (parsed_length _ _ _ _ Hparsed).
  split; [eauto|]. apply remove_empty_suites_pruned.
Qed.

(** *** Custom parser registration *)

Lemma fold_set_other (cp : CustomParser) es (d : dict string CustomParser) ext :
  ext ∉ es ->
  dict_get ext (fold_left (fun d e => dict_set e cp d) es d) = dict_get ext d.
Proof.
  revert d. induction es as [|e es IH]; intros d Hnot; simpl; [reflexivity|].
  apply not_elem_of_cons in Hnot as [Hne Hnot]. rewrite IH by exact Hnot.
  apply dict_get_set_ne. congruence.
Qed.

Lemma claim_get_other cp (d : dict string CustomParser) ext :
  ext ∉ extensions cp -> dict_get ext (claim cp d) = dict_get ext d.
Proof. apply fold_set_other. Qed.

Lemma claim_get_claimed cp (d : dict string CustomParser) ext :
  ext ∈ extensions cp -> dict_get ext (claim cp d) = Some cp.
Proof.
  unfold claim. revert d. induction (extensions cp) as [|e es IH]; intros d Hin; simpl.
  - apply elem_of_nil in Hin. contradiction.
  - destruct (decide (ext ∈ es)) as [Hes|Hes]; [apply IH; exact Hes|].
    apply elem_of_cons in Hin as [->|Hin]; [|contradiction].
    rewrite fold_set_other by exact Hes. apply dict_get_set_eq.
Qed.

(** What [register] does with an argument that resolves to [obj]. *)
Lemma register_resolved arg name obj d :
  resolve arg = Ok (name, obj) ->
  register arg d =
    let* cp := except_TypeError (CustomParser_new obj) (importing_failed name) in
    Ok (claim cp d).
Proof. unfold TestSuiteBuilder.register. intros ->. reflexivity. Qed.

(** Later registrations that do not claim [ext] leave its entry alone. *)
Lemma register_all_other ext after :
  (forall later name obj cp,
     later ∈ after -> resolve later = Ok (name, obj) -> CustomParser_new obj = Ok cp ->
     ext ∉ extensions cp) ->
  forall d reg, foldM register after d = Ok reg -> dict_get ext reg = dict_get ext d.
Proof.
  induction after as [|a after IH]; intros Hlater d reg H; simpl in H.
  - injection H as <-. reflexivity.
  - apply bind_Ok in H as (d1 & Ha & H).
    rewrite (IH (fun later name obj cp Hin => Hlater later name obj cp
                   (list_elem_of_further _ _ _ Hin)) _ _ H).
    unfold TestSuiteBuilder.register in Ha.
    apply bind_Ok in Ha as ([name obj] & Hres & Ha).
    apply bind_Ok in Ha as (cp & Hnew & Ha). injection Ha as <-.
    apply claim_get_other. apply (Hlater a name obj cp); [left | exact Hres |].
    destruct (CustomParser_new obj) as [cp'|[]]; simpl in Hnew; congruence.
Qed.

(** C9. In the registry [_get_custom_parsers] returns, an extension is
    mapped to the last parser of the sequence that claims it: the parser
    [cp] made from an argument after which no argument yields a parser
    claiming the extension.  And when an argument, the ones before it
    having been registered, stands for an object the [CustomParser]
    constructor rejects with a [TypeError], registration fails with a
    [DataError] carrying the constructor's message and naming the parser:
    by the name split off the argument when the parser was given by name or
    path, by the type name of the object when a parser object was
    supplied. *)
Theorem custom_parser_registration args :
  (forall reg before arg after name obj cp ext,
     _get_custom_parsers args = Ok reg ->
     args = before ++ arg :: after ->
     resolve arg = Ok (name, obj) ->
     CustomParser_new obj = Ok cp ->
     ext ∈ extensions cp ->
     (forall later name' obj' cp',
        later ∈ after -> resolve later = Ok (name', obj') ->
        CustomParser_new obj' = Ok cp' -> ext ∉ extensions cp') ->
     dict_get ext reg = Some cp) /\
  (forall before arg after registered obj message,
     args = before ++ arg :: after ->
     _get_custom_parsers before = Ok registered ->
     match arg with
     | ByName name_or_path =>
         import_class_or_module (split_args_from_name_or_path name_or_path).1
           (split_args_from_name_or_path name_or_path).2 = Ok obj
     | ByObject parser => parser = obj
     end ->
     CustomParser_new obj = Raise (TypeError message) ->
     _get_custom_parsers args =
       Raise (DataError
         ("Importing parser '" +:+
          match arg with
          | ByName name_or_path => (split_args_from_name_or_path name_or_path).1
          | ByObject parser => type_name parser
          end +:+
          "' failed: " +:+ message))).
Proof.
  unfold TestSuiteBuilder._get_custom_parsers. split.
  - intros reg before arg after name obj cp ext Hreg -> Hres Hnew Hin Hlater.
    rewrite foldM_app in Hreg. apply bind_Ok in Hreg as (d0 & _ & Hreg).
    simpl in Hreg. apply bind_Ok in Hreg as (d1 & Harg & Hreg).
    rewrite (register_all_other ext after Hlater _ _ Hreg).
    rewrite (register_resolved _ _ _ _ Hres), Hnew in Harg. simpl in Harg.
    injection Harg as <-. apply claim_get_claimed. exact Hin.
  - intros before arg after registered obj message -> Hbefore Hobj Hnew.
    rewrite foldM_app, Hbefore. simpl. unfold register, resolve.
    destruct arg as [name_or_path|parser].
    + destruct (split_args_from_name_or_path name_or_path) as [name arguments].
      simpl in Hobj. rewrite Hobj. simpl. rewrite Hnew. reflexivity.
    + subst parser. simpl. rewrite Hnew. reflexivity.
Qed.
End BuilderProperties.

(** ** The builder's properties on the concrete world *)

Lemma execution_mode_conflict_witness :
  SuiteStructureParser.parse (Sample.directory ["tests"; "tasks"])
    (SuiteStructureParser.__init__ Sample.parsers None) =
    Raise (DataError
      "Parsing '/work/suite/tasks.robot' failed: Conflicting execution modes. File has tasks but files parsed earlier have tests. Fix headers or use '--rpa' or '--norpa' options to set the execution mode explicitly.") /\
  Sample.build ["tests"; "tasks"] (Sample.builder [] None false) ["suite"] =
    Raise (DataError
      "Parsing '/work/suite/tasks.robot' failed: Conflicting execution modes. File has tasks but files parsed earlier have tests. Fix headers or use '--rpa' or '--norpa' options to set the execution mode explicitly.").
Proof.
  epose proof (execution_mode_conflict Sample.normpath Sample.absolute Sample.path_exists
                 Sample.is_file Sample.suffix Sample.lower Sample.seq2str Sample.no_init_parser
                 (Sample.walker ["tests"; "tasks"])
                 Sample.parsers (Sample.directory ["tests"; "tasks"])
                 "/work/suite/tasks.robot" (Some "robot") _ Sample.robot_parser _ true false)
    as Hconflict.
  edestruct Hconflict as [Hparse Hbuild]; clear Hconflict.
  - eapply (Visitor.visits_child _ _ _ _ [Sample.file "tests"] (Sample.file "tasks") []).
    + vm_compute. reflexivity.
    + vm_compute. reflexivity.
    + apply Visitor.visits_here.
  - reflexivity.
  - vm_compute. reflexivity.
  - reflexivity.
  - reflexivity.
  - discriminate.
  - split; [exact Hparse|].
    apply (Hbuild (Sample.builder [] None false) ["suite"] eq_refl).
    exists ["/work/suite"]. repeat split; vm_compute; reflexivity.
Defined.


Lemma non_empty_validation_witness :
  Sample.build ["plain"] (Sample.builder [] None true) ["suite"] =
    Ok (TestSuite.Suite "/work/suite" (Some "/work/suite") [] [] None) /\
  Sample.build ["plain"] (Sample.builder [] None false) ["suite"] =
    Raise (DataError "Suite '/work/suite' contains no tests or tasks.") /\
  Sample.build ["tests"] (Sample.builder [] None false) ["suite"; "other"] =
    Raise (DataError "Suite '/work/other' contains no tests or tasks.").
Proof.
  split; [|split].
  - eapply (proj1 (non_empty_validation Sample.normpath Sample.absolute Sample.path_exists
                     Sample.is_file Sample.suffix Sample.lower Sample.seq2str Sample.no_init_parser
                     (Sample.walker ["plain"]) (Sample.builder [] None true) ["suite"]
                     _ _ ltac:(vm_compute; reflexivity))).
    right. reflexivity.
  - eapply (proj2 (proj1 (proj2
              (non_empty_validation Sample.normpath Sample.absolute Sample.path_exists
                 Sample.is_file Sample.suffix Sample.lower Sample.seq2str Sample.no_init_parser
                 (Sample.walker ["plain"]) (Sample.builder [] None false) ["suite"]
                 _ _ ltac:(vm_compute; reflexivity))
              eq_refl eq_refl) ltac:(simpl; lia))).
    reflexivity.
  - eapply (proj2 (proj2 (proj2
              (non_empty_validation Sample.normpath Sample.absolute Sample.path_exists
                 Sample.is_file Sample.suffix Sample.lower Sample.seq2str Sample.no_init_parser
                 (Sample.walker ["tests"]) (Sample.builder [] None false)
                 ["suite"; "other"] _ _ ltac:(vm_compute; reflexivity))
              eq_refl eq_refl) ltac:(simpl; lia))
              [_] _ [] eq_refl ltac:(repeat constructor) eq_refl).
Defined.

Lemma build_always_prunes_witness :
  exists tree,
    Sample.build ["plain"; "tests"] (Sample.builder ["Tests"] (Some false) true) ["suite"]
      = Ok tree /\
    pruned tree = true /\
    map TestSuite.name (TestSuite.suites tree) = ["Tests"].
Proof.
  eexists. split; [vm_compute; reflexivity|]. split; [|reflexivity].
  exact (proj2 (build_always_prunes Sample.normpath Sample.absolute Sample.path_exists
                  Sample.is_file Sample.suffix Sample.lower Sample.seq2str Sample.no_init_parser
                  (Sample.walker ["plain"; "tests"])
                  (Sample.builder ["Tests"] (Some false) true) ["suite"] _
                  ltac:(vm_compute; reflexivity))).
Defined.

(** C7, as the spec states it, fails: no configuration of the builder makes
    [build] return a suite with an empty suite left below the level that
    pruning preserves.  Under the most lenient configuration (suite
    filters given, empty suites allowed, mode overridden) the empty suite
    that [parse] returns for [plain.robot] is gone from what [build]
    returns. *)
Lemma pruning_is_not_optional :
  (SuiteStructureParser.parse (Sample.directory ["plain"])
     (SuiteStructureParser.__init__ Sample.parsers (Some false)) =
     Ok (TestSuite.Suite "/work/suite" (Some "/work/suite") []
           [TestSuite.Suite "Plain" (Some "/work/suite/plain.robot") [] [] (Some false)]
           (Some false)) /\
   Sample.build ["plain"] (Sample.builder ["Plain"] (Some false) true) ["suite"] =
     Ok (TestSuite.Suite "/work/suite" (Some "/work/suite") [] [] (Some false))) /\
  ~ exists normpath absolute path_exists is_file suffix lower seq2str no_init walker
           self paths tree,
      TestSuiteBuilder.build normpath absolute path_exists is_file suffix lower seq2str
        no_init walker self paths = Ok tree /\
      (if (1 <? length paths)%nat
       then forallb pruned (TestSuite.suites tree)
       else pruned tree) = false.
Proof.
  split; [split; vm_compute; reflexivity|].
  intros (normpath & absolute & path_exists & is_file & suffix & lower & seq2str
          & no_init & walker & self & paths & tree & Hbuild & Hleft).
  rewrite build_stages in Hbuild.
  apply bind_Ok in Hbuild as ([paths' suite] & Hparsed & Hbuild).
  apply bind_Ok in Hbuild as (u & _ & Hbuild). injection Hbuild as <-.
  rewrite (parsed_length _ _ _ _ _ _ _ _ _ _ _ _ _ Hparsed) in Hleft.
  rewrite remove_empty_suites_pruned in Hleft. discriminate.
Qed.

Lemma custom_parser_registration_witness :
  (exists reg,
     Sample._get_custom_parsers
       [TestSuiteBuilder.ByObject "XyzJsonParser"; TestSuiteBuilder.ByObject "XyzParser"]
       = Ok reg /\
     dict_get "xyz" reg = Some (Sample.xyz_parser ["xyz"]) /\
     dict_get "json" reg = Some (Sample.xyz_parser ["xyz"; "json"])) /\
  Sample._get_custom_parsers
    [TestSuiteBuilder.ByObject "XyzParser"; TestSuiteBuilder.ByName "Broken"] =
    Raise (DataError
      "Importing parser 'Broken' failed: 'Broken' does not have mandatory 'parse' method.") /\
  Sample._get_custom_parsers
    [TestSuiteBuilder.ByObject "XyzParser"; TestSuiteBuilder.ByObject "Shapeless"] =
    Raise (DataError
      "Importing parser 'Shapeless' failed: 'Shapeless' does not have mandatory 'parse' method.").
Proof.
  split; [|split].
  - eexists. split; [vm_compute; reflexivity|]. split.
    + eapply (proj1 (custom_parser_registration Sample.split_args_from_name_or_path
                       Sample.import_class_or_module Sample.type_name Sample.CustomParser_new
                       [TestSuiteBuilder.ByObject "XyzJsonParser";
                        TestSuiteBuilder.ByObject "XyzParser"])
                _ [TestSuiteBuilder.ByObject "XyzJsonParser"]
                (TestSuiteBuilder.ByObject "XyzParser") [] "XyzParser" "XyzParser").
      * vm_compute. reflexivity.
      * reflexivity.
      * reflexivity.
      * reflexivity.
      * left.
      * intros later name' obj' cp' Hin. apply elem_of_nil in Hin. contradiction.
    + eapply (proj1 (custom_parser_registration Sample.split_args_from_name_or_path
                       Sample.import_class_or_module Sample.type_name Sample.CustomParser_new
                       [TestSuiteBuilder.ByObject "XyzJsonParser";
                        TestSuiteBuilder.ByObject "XyzParser"])
                _ [] (TestSuiteBuilder.ByObject "XyzJsonParser")
                [TestSuiteBuilder.ByObject "XyzParser"] "XyzJsonParser" "XyzJsonParser").
      * vm_compute. reflexivity.
      * reflexivity.
      * reflexivity.
      * reflexivity.
      * right. left.
      * intros later name' obj' cp' Hin Hres Hnew.
        apply list_elem_of_singleton in Hin. subst later.
        injection Hres as <- <-. injection Hnew as <-.
        intros Hjson. apply list_elem_of_singleton in Hjson. discriminate.
  - eapply (proj2 (custom_parser_registration Sample.split_args_from_name_or_path
                     Sample.import_class_or_module Sample.type_name Sample.CustomParser_new
                     [TestSuiteBuilder.ByObject "XyzParser"; TestSuiteBuilder.ByName "Broken"])
              [TestSuiteBuilder.ByObject "XyzParser"] (TestSuiteBuilder.ByName "Broken") []
              _ "Broken").
    + reflexivity.
    + vm_compute. reflexivity.
    + reflexivity.
    + reflexivity.
  - eapply (proj2 (custom_parser_registration Sample.split_args_from_name_or_path
                     Sample.import_class_or_module Sample.type_name Sample.CustomParser_new
                     [TestSuiteBuilder.ByObject "XyzParser";
                      TestSuiteBuilder.ByObject "Shapeless"])
              [TestSuiteBuilder.ByObject "XyzParser"]
              (TestSuiteBuilder.ByObject "Shapeless") [] _ "Shapeless").
    + reflexivity.
    + vm_compute. reflexivity.
    + reflexivity.
    + reflexivity.
Defined.

(** ** The parser registry *)

Section RegistryProperties.
Import TestSuiteBuilder.
Context (is_file : Path -> bool) (suffix : Path -> string).
Context (lower : string -> string).
Context {ParserObject : Type}
        (split_args_from_name_or_path : string -> string * list string)
        (import_class_or_module : string -> list string -> result ParserObject)
        (type_name : ParserObject -> string)
        (CustomParser_new : ParserObject -> result CustomParser).
Context {Languages : Type}
        (RobotParser RestParser : Languages -> bool -> Parser)
        (JsonParser NoInitFileDirectoryParser : Parser).

Local Abbreviation _get_parsers :=
  (TestSuiteBuilder._get_parsers is_file suffix lower NoInitFileDirectoryParser).
Local Abbreviation __init__ :=
  (TestSuiteBuilder.__init__ split_args_from_name_or_path import_class_or_module
     type_name CustomParser_new RobotParser RestParser JsonParser).
Local Abbreviation resolve :=
  (TestSuiteBuilder.resolve split_args_from_name_or_path import_class_or_module type_name).
Local Abbreviation register :=
  (TestSuiteBuilder.register split_args_from_name_or_path import_class_or_module
     type_name CustomParser_new).
Local Abbreviation _get_custom_parsers :=
  (TestSuiteBuilder._get_custom_parsers split_args_from_name_or_path
     import_class_or_module type_name CustomParser_new).

Lemma dict_get_custom_entries ext (custom : dict string CustomParser) :
  dict_get (Some ext)
    (map (fun '(e, p) => (Some e, as_parser p)) custom
       : dict (option string) Parser) =
  as_parser <$> dict_get ext custom.
Proof.
  induction custom as [|[e p] custom IH]; simpl; [reflexivity|].
  destruct (decide (Some ext = Some e)) as [Heq|Hne], (decide (ext = e)) as [Heq'|Hne'].
  - reflexivity.
  - congruence.
  - congruence.
  - exact IH.
Qed.

(** The loop of [_get_parsers] fills in the keys that are missing and
    leaves the others alone. *)
Lemma get_parsers_loop (robot_parser : Parser) (standard : dict string Parser) extensions :
  forall (parsers : dict (option string) Parser) key,
    dict_get key
      (fold_left
         (fun parsers ext =>
            let ext := lower (lstrip_dot ext) in
            match dict_get (Some ext) parsers with
            | Some _ => parsers
            | None =>
                dict_set (Some ext) (default robot_parser (dict_get ext standard)) parsers
            end)
         extensions parsers) =
    match dict_get key parsers with
    | Some parser => Some parser
    | None =>
        match key with
        | Some ext =>
            if bool_decide (ext ∈ map (fun e => lower (lstrip_dot e)) extensions)
            then Some (default robot_parser (dict_get ext standard))
            else None
        | None => None
        end
    end.
Proof.
  induction extensions as [|e extensions IH]; intros parsers key; simpl.
  - destruct (dict_get key parsers), key; reflexivity.
  - rewrite IH. clear IH.
    destruct (dict_get (Some (lower (lstrip_dot e))) parsers) as [known|] eqn:Hknown.
    + destruct (dict_get key parsers) as [parser|] eqn:Hkey; [reflexivity|].
      destruct key as [ext|]; [|reflexivity].
      assert (ext <> lower (lstrip_dot e)) as Hne by congruence.
      destruct (bool_decide (ext ∈ map _ extensions)) eqn:Hin.
      * apply bool_decide_eq_true in Hin.
        rewrite bool_decide_eq_true_2 by (right; exact Hin). reflexivity.
      * apply bool_decide_eq_false in Hin.
        rewrite bool_decide_eq_false_2; [reflexivity|].
        intros Hcons. apply elem_of_cons in Hcons as [?|?]; contradiction.
    + destruct (decide (key = Some (lower (lstrip_dot e)))) as [->|Hne].
      * rewrite dict_get_set_eq, Hknown.
        rewrite bool_decide_eq_true_2 by left. reflexivity.
      * rewrite dict_get_set_ne by congruence.
        destruct (dict_get key parsers) as [parser|]; [reflexivity|].
        destruct key as [ext|]; [|reflexivity].
        destruct (bool_decide (ext ∈ map _ extensions)) eqn:Hin.
        -- apply bool_decide_eq_true in Hin.
           rewrite bool_decide_eq_true_2 by (right; exact Hin). reflexivity.
        -- apply bool_decide_eq_false in Hin.
           rewrite bool_decide_eq_false_2; [reflexivity|].
           intros Hcons. apply elem_of_cons in Hcons as [?|?]; [congruence | contradiction].
Qed.

(** The registry [_get_parsers] returns, key by key. *)
Lemma get_parsers_lookup self paths registry :
  _get_parsers self paths = Ok registry ->
  exists robot_parser,
    dict_get "robot" (standard_parsers self) = Some robot_parser /\
    dict_get None registry = Some NoInitFileDirectoryParser /\
    forall ext,
      dict_get (Some ext) registry =
        match dict_get ext (custom_parsers self) with
        | Some custom => Some (as_parser custom)
        | None =>
            if bool_decide
                 (ext ∈ map (fun e => lower (lstrip_dot e))
                        (included_extensions self ++ map suffix (List.filter is_file paths)))
            then Some (default robot_parser (dict_get ext (standard_parsers self)))
            else None
        end.
Proof.
  unfold TestSuiteBuilder._get_parsers, getitem. intros H.
  destruct (dict_get "robot" (standard_parsers self)) as [robot_parser|]; [|discriminate].
  simpl in H. injection H as <-. exists robot_parser. split; [reflexivity|]. split.
  - rewrite get_parsers_loop. simpl. reflexivity.
  - intros ext. rewrite get_parsers_loop. simpl.
    destruct (decide (Some ext = None)); [discriminate|].
    rewrite dict_get_custom_entries.
    destruct (dict_get ext (custom_parsers self)); reflexivity.
Qed.

(** X1. What [_get_parsers] returns, key by key.  [None] stands for the
    parser of directories without init file.  A custom parser shadows
    every other parser for the extensions it claims.  An extension that no
    custom parser claims has a parser exactly when it is, with leading dots
    stripped and in lower case, an included extension or the suffix of a
    path that is a file; that parser is the standard one for the extension
    and, where there is none, the robot parser. *)
Theorem registry_lookup self paths registry :
  _get_parsers self paths = Ok registry ->
  exists robot_parser,
    dict_get "robot" (standard_parsers self) = Some robot_parser /\
    dict_get None registry = Some NoInitFileDirectoryParser /\
    forall ext,
      dict_get (Some ext) registry =
        match dict_get ext (custom_parsers self) with
        | Some custom => Some (as_parser custom)
        | None =>
            if bool_decide
                 (ext ∈ map (fun e => lower (lstrip_dot e))
                        (included_extensions self ++ map suffix (List.filter is_file paths)))
            then Some (default robot_parser (dict_get ext (standard_parsers self)))
            else None
        end.
Proof. exact (get_parsers_lookup self paths registry). Qed.

(** X2. On a builder made by [__init__], [_get_parsers] does not fail, and
    in the registry it returns every included extension and the suffix of
    every path that is a file has a parser. *)
Theorem registry_of_new_builder
    included_suites extensions custom rpa lang allow_empty_suite process_curdir self paths :
  __init__ included_suites extensions custom rpa lang allow_empty_suite process_curdir
    = Ok self ->
  exists registry,
    _get_parsers self paths = Ok registry /\
    (forall e, e ∈ extensions ->
       is_Some (dict_get (Some (lower (lstrip_dot e))) registry)) /\
    (forall p, p ∈ paths -> is_file p = true ->
       is_Some (dict_get (Some (lower (lstrip_dot (suffix p)))) registry)).
Proof.
  unfold TestSuiteBuilder.__init__. intros H.
  apply bind_Ok in H as (registered & _ & H). injection H as <-.
  destruct (_get_parsers _ paths) as [registry|e] eqn:Hget.
  - exists registry. split; [reflexivity|].
    destruct (get_parsers_lookup _ _ _ Hget) as (robot_parser & _ & _ & Hlookup).
    simpl in Hlookup.
    assert (forall e,
              e ∈ extensions ++ map suffix (List.filter is_file paths) ->
              is_Some (dict_get (Some (lower (lstrip_dot e))) registry)) as Hsome.
    { intros e He. rewrite Hlookup. destruct (dict_get _ registered); [eauto|].
      rewrite bool_decide_eq_true_2; [eauto|].
      apply (list_elem_of_fmap_2 (fun e => lower (lstrip_dot e))). exact He. }
    split.
    + intros e He. apply Hsome. apply elem_of_app. left. exact He.
    + intros p Hp Hfile. apply Hsome. apply elem_of_app. right.
      apply (list_elem_of_fmap_2 suffix). apply list_elem_of_In. apply filter_In.
      split; [apply list_elem_of_In; exact Hp | exact Hfile].
  - unfold TestSuiteBuilder._get_parsers, TestSuiteBuilder._get_standard_parsers in Hget.
    simpl in Hget. discriminate.
Qed.
End RegistryProperties.

Lemma registry_lookup_witness :
  exists registry,
    TestSuiteBuilder._get_parsers Sample.is_file Sample.suffix Sample.lower Sample.no_init_parser
      Sample.registry_builder ["/work/suite"; "/work/suite/tests.robot"] = Ok registry /\
    dict_get None registry = Some Sample.no_init_parser /\
    dict_get (Some "xyz") registry = Some (as_parser (Sample.xyz_parser ["xyz"])) /\
    dict_get (Some "robot") registry = Some Sample.robot_parser /\
    dict_get (Some "rst") registry = Some Sample.rest_parser /\
    dict_get (Some "txt") registry = Some Sample.robot_parser /\
    dict_get (Some "json") registry = None /\
    dict_get (Some ".ROBOT") registry = None.
Proof.
  eexists. split; [vm_compute; reflexivity|].
  destruct (registry_lookup Sample.is_file Sample.suffix Sample.lower Sample.no_init_parser
              Sample.registry_builder ["/work/suite"; "/work/suite/tests.robot"] _
              ltac:(vm_compute; reflexivity)) as (robot_parser & Hrobot & Hnone & Hlookup).
  injection Hrobot as <-.
  split; [exact Hnone|]. repeat split; rewrite Hlookup; reflexivity.
Defined.

Lemma registry_of_new_builder_witness :
  exists self registry,
    Sample.__init__ [] [".robot"; "TXT"] [TestSuiteBuilder.ByObject "XyzParser"] None tt
      false true = Ok self /\
    TestSuiteBuilder._get_parsers Sample.is_file Sample.suffix Sample.lower Sample.no_init_parser
      self ["/work/suite/tests.robot"] = Ok registry /\
    is_Some (dict_get (Some "txt") registry).
Proof.
  eexists.
  destruct (registry_of_new_builder Sample.is_file Sample.suffix Sample.lower
              Sample.split_args_from_name_or_path Sample.import_class_or_module
              Sample.type_name Sample.CustomParser_new
              (fun _ _ => Sample.robot_parser) (fun _ _ => Sample.rest_parser)
              Sample.robot_parser Sample.no_init_parser
              [] [".robot"; "TXT"] [TestSuiteBuilder.ByObject "XyzParser"] None tt
              false true _ ["/work/suite/tests.robot"] ltac:(vm_compute; reflexivity))
    as (registry & Hget & Hincluded & _).
  exists registry. split; [reflexivity|]. split; [exact Hget|].
  apply (Hincluded "TXT"). right. left.
Defined.

(** ** More on the builder *)

Section BuilderCoverage.
Import TestSuiteBuilder.
Context (normpath : string -> string) (absolute : Path -> Path)
        (path_exists : Path -> bool) (is_file : Path -> bool)
        (suffix : Path -> string).
Context (lower : string -> string).
Context (seq2str : list Path -> string).
Context {ParserObject : Type}
        (split_args_from_name_or_path : string -> string * list string)
        (import_class_or_module : string -> list string -> result ParserObject)
        (type_name : ParserObject -> string)
        (CustomParser_new : ParserObject -> result CustomParser).
Context (NoInitFileDirectoryParser : Parser).
Context (SuiteStructureBuilder_build :
           list string -> list string -> list Path -> result SuiteStructure.t).

Local Abbreviation _normalize_paths :=
  (TestSuiteBuilder._normalize_paths normpath absolute path_exists seq2str).
Local Abbreviation build :=
  (TestSuiteBuilder.build normpath absolute path_exists is_file suffix lower seq2str
     NoInitFileDirectoryParser SuiteStructureBuilder_build).
Local Abbreviation parsed :=
  (Builder.parsed normpath absolute path_exists is_file suffix lower seq2str
     NoInitFileDirectoryParser SuiteStructureBuilder_build).
Local Abbreviation resolve :=
  (TestSuiteBuilder.resolve split_args_from_name_or_path import_class_or_module type_name).
Local Abbreviation register :=
  (TestSuiteBuilder.register split_args_from_name_or_path import_class_or_module
     type_name CustomParser_new).
Local Abbreviation _get_custom_parsers :=
  (TestSuiteBuilder._get_custom_parsers split_args_from_name_or_path
     import_class_or_module type_name CustomParser_new).

Lemma claim_get_inv claimant (d : dict string CustomParser) ext cp :
  dict_get ext (claim claimant d) = Some cp ->
  ext ∈ extensions claimant /\ cp = claimant \/ dict_get ext d = Some cp.
Proof.
  intros H. destruct (decide (ext ∈ extensions claimant)) as [Hin|Hout].
  - rewrite (claim_get_claimed _ _ _ Hin) in H. injection H as <-. auto.
  - rewrite (claim_get_other _ _ _ Hout) in H. auto.
Qed.

Lemma register_Ok arg d d' :
  register arg d = Ok d' ->
  exists name obj cp,
    resolve arg = Ok (name, obj) /\ CustomParser_new obj = Ok cp /\ d' = claim cp d.
Proof.
  unfold TestSuiteBuilder.register. intros H.
  apply bind_Ok in H as ([name obj] & Hres & H).
  apply bind_Ok in H as (cp & Hnew & H). injection H as <-.
  exists name, obj, cp. split; [exact Hres|]. split; [|reflexivity].
  destruct (CustomParser_new obj) as [cp'|[]]; simpl in Hnew; congruence.
Qed.

Lemma registered_origin args :
  forall d reg, foldM register args d = Ok reg ->
  forall ext cp, dict_get ext reg = Some cp ->
    dict_get ext d = Some cp \/
    exists arg name obj,
      arg ∈ args /\ resolve arg = Ok (name, obj) /\ CustomParser_new obj = Ok cp /\
      ext ∈ extensions cp.
Proof.
  induction args as [|arg args IH]; intros d reg H ext cp Hget; simpl in H.
  - injection H as <-. auto.
  - apply bind_Ok in H as (d1 & Harg & H).
    destruct (IH _ _ H ext cp Hget) as [Hd1|(a & n & o & Hin & Hres & Hnew & Hext)].
    + apply register_Ok in Harg as (name & obj & claimant & Hres & Hnew & ->).
      apply claim_get_inv in Hd1 as [[Hext ->]|Hd]; [|auto].
      right. exists arg, name, obj. split; [left | auto].
    + right. exists a, n, o. split; [right; exact Hin | auto].
Qed.

(** X3. [_get_custom_parsers] registers nothing but what was claimed: an
    entry of the registry it returns is a parser made from one of the
    arguments, under an extension that parser claims.  In particular no
    argument gives the empty registry. *)
Theorem custom_registry_holds_claims_only args reg :
  _get_custom_parsers args = Ok reg ->
  (forall ext cp,
     dict_get ext reg = Some cp ->
     exists arg name obj,
       arg ∈ args /\ resolve arg = Ok (name, obj) /\ CustomParser_new obj = Ok cp /\
       ext ∈ extensions cp) /\
  (args = [] -> reg = []).
Proof.
  unfold TestSuiteBuilder._get_custom_parsers. intros H. split.
  - intros ext cp Hget.
    destruct (registered_origin _ _ _ H ext cp Hget) as [Hnil|Hfrom]; [discriminate|].
    exact Hfrom.
  - intros ->. simpl in H. congruence.
Qed.

(** X4. Only a [TypeError] of the [CustomParser] constructor is turned into
    the "Importing parser ... failed" error.  What the importer raises for
    a name or path, and any other exception of the constructor, leaves
    [_get_custom_parsers] as it is, once the arguments before have been
    registered. *)
Theorem custom_parser_errors_pass_through before arg after registered e :
  _get_custom_parsers before = Ok registered ->
  (resolve arg = Raise e ->
   _get_custom_parsers (before ++ arg :: after) = Raise e) /\
  (forall name obj,
     resolve arg = Ok (name, obj) ->
     CustomParser_new obj = Raise e ->
     (forall message, e <> TypeError message) ->
     _get_custom_parsers (before ++ arg :: after) = Raise e).
Proof.
  unfold TestSuiteBuilder._get_custom_parsers. intros Hbefore. split.
  - intros Hres. rewrite foldM_app, Hbefore. simpl.
    unfold TestSuiteBuilder.register. rewrite Hres. reflexivity.
  - intros name obj Hres Hnew Hother. rewrite foldM_app, Hbefore. simpl.
    rewrite (register_resolved _ _ _ _ _ _ _ _ Hres), Hnew.
    destruct e; try reflexivity. exfalso. exact (Hother message eq_refl).
Qed.

Lemma filter_nil_Forall {A} (f : A -> bool) (l : list A) :
  List.filter f l = [] -> Forall (fun x => f x = false) l.
Proof.
  induction l as [|a l IH]; simpl; [constructor|].
  destruct (f a) eqn:Ha; [discriminate|]. intros H. constructor; auto.
Qed.

(** X5. When [_normalize_paths] returns, there was at least one path, the
    result has one path per input path, in order, and every path of the
    result exists. *)
Theorem normalized_paths_exist paths normalized :
  _normalize_paths paths = Ok normalized ->
  paths <> [] /\
  normalized = map (fun p => absolute (normpath p)) paths /\
  length normalized = length paths /\
  Forall (fun p => path_exists p = true) normalized.
Proof.
  unfold TestSuiteBuilder._normalize_paths. intros H.
  destruct paths as [|p paths]; [discriminate|]. cbn [truthy negb] in H.
  destruct (List.filter _ _) as [|missing others] eqn:Hmissing; [|discriminate].
  injection H as <-. split; [discriminate|]. split; [reflexivity|].
  split; [exact (length_map _ (p :: paths))|].
  apply filter_nil_Forall in Hmissing.
  eapply Forall_impl; [exact Hmissing|]. simpl. intros q Hq.
  destruct (path_exists q); [reflexivity | discriminate].
Qed.

Lemma validate_children_Ok_inv children :
  Builder.validate_children children = Ok tt ->
  Forall (fun c => TestSuite.has_tests c = true) children.
Proof.
  induction children as [|c cs IH]; simpl; [constructor|].
  rewrite validate_single. destruct (TestSuite.has_tests c) eqn:Hc; [|discriminate].
  simpl. intros H. constructor; auto.
Qed.

(** X6. Validation and pruning together: when a build without suite
    filters that does not allow empty suites returns, every suite below the
    root of what it returns contains a test or task, and with one input
    path so does the root; pruning removes nothing that validation
    required. *)
Theorem strict_build_has_tests_everywhere self paths tree :
  included_suites self = [] ->
  allow_empty_suite self = false ->
  build self paths = Ok tree ->
  pruned tree = true /\
  (length paths <= 1 -> TestSuite.has_tests tree = true) /\
  (exists suite paths',
     parsed self paths = Ok (paths', suite) /\
     map TestSuite.name (TestSuite.suites tree) =
       map TestSuite.name
         (if (1 <? length paths)%nat then TestSuite.suites suite
          else List.filter TestSuite.has_tests (TestSuite.suites suite))).
Proof.
  intros Hfilters Hallow H. rewrite build_stages in H.
  apply bind_Ok in H as ([paths' suite] & Hparsed & H).
  apply bind_Ok in H as ([] & Hvalid & H). injection H as <-.
  rewrite Hfilters, Hallow in Hvalid. simpl in Hvalid.
  rewrite (parsed_length _ _ _ _ _ _ _ _ _ _ _ _ _ Hparsed) in *.
  destruct (1 <? length paths)%nat eqn:Hmulti.
  - rewrite validate_multi in Hvalid. apply validate_children_Ok_inv in Hvalid.
    apply Nat.ltb_lt in Hmulti. split; [|split; [lia|]].
    + simpl. induction Hvalid as [|c cs Hc _ IH]; simpl; [reflexivity|].
      rewrite has_tests_prune, Hc, pruned_prune, IH. reflexivity.
    + exists suite, paths'. split; [exact Hparsed|]. simpl.
      clear. induction (TestSuite.suites suite) as [|c cs IH]; simpl; [reflexivity|].
      destruct c. simpl. f_equal. exact IH.
  - rewrite validate_single in Hvalid.
    destruct (TestSuite.has_tests suite) eqn:Htests; [|discriminate].
    split; [apply pruned_prune|]. split.
    + intros _. simpl. rewrite has_tests_prune. exact Htests.
    + exists suite, paths'. split; [exact Hparsed|]. destruct suite as [n src ts cs mode].
      simpl. clear. induction cs as [|c cs IH]; simpl; [reflexivity|].
      rewrite has_tests_prune. destruct (TestSuite.has_tests c); simpl; [|exact IH].
      destruct c. simpl. f_equal. exact IH.
Qed.
End BuilderCoverage.

Lemma custom_registry_holds_claims_only_witness :
  exists reg,
    Sample._get_custom_parsers
      [TestSuiteBuilder.ByName "XyzParser"; TestSuiteBuilder.ByObject "XyzJsonParser"]
      = Ok reg /\
    dict_get "json" reg = Some (Sample.xyz_parser ["xyz"; "json"]) /\
    exists arg name obj,
      arg ∈ [TestSuiteBuilder.ByName "XyzParser"; TestSuiteBuilder.ByObject "XyzJsonParser"] /\
      TestSuiteBuilder.resolve Sample.split_args_from_name_or_path
        Sample.import_class_or_module Sample.type_name arg = Ok (name, obj) /\
      Sample.CustomParser_new obj = Ok (Sample.xyz_parser ["xyz"; "json"]) /\
      "json" ∈ extensions (Sample.xyz_parser ["xyz"; "json"]).
Proof.
  eexists. split; [vm_compute; reflexivity|]. split; [reflexivity|].
  apply (proj1 (custom_registry_holds_claims_only Sample.split_args_from_name_or_path
                  Sample.import_class_or_module Sample.type_name Sample.CustomParser_new
                  [TestSuiteBuilder.ByName "XyzParser"; TestSuiteBuilder.ByObject "XyzJsonParser"]
                  _ ltac:(vm_compute; reflexivity))
           "json" (Sample.xyz_parser ["xyz"; "json"])).
  reflexivity.
Defined.

Lemma custom_parser_errors_pass_through_witness :
  TestSuiteBuilder._get_custom_parsers Sample.split_args_from_name_or_path
    Sample.strict_import Sample.type_name Sample.fragile_CustomParser_new
    [TestSuiteBuilder.ByObject "XyzParser"; TestSuiteBuilder.ByName "missing.Parser";
     TestSuiteBuilder.ByObject "XyzJsonParser"] =
    Raise (DataError "Importing parser 'missing.Parser' failed: ModuleNotFoundError") /\
  TestSuiteBuilder._get_custom_parsers Sample.split_args_from_name_or_path
    Sample.strict_import Sample.type_name Sample.fragile_CustomParser_new
    [TestSuiteBuilder.ByObject "XyzParser"; TestSuiteBuilder.ByObject "Weird"] =
    Raise AttributeError.
Proof.
  split.
  - apply (proj1 (custom_parser_errors_pass_through Sample.split_args_from_name_or_path
                    Sample.strict_import Sample.type_name Sample.fragile_CustomParser_new
                    [TestSuiteBuilder.ByObject "XyzParser"]
                    (TestSuiteBuilder.ByName "missing.Parser")
                    [TestSuiteBuilder.ByObject "XyzJsonParser"]
                    [("xyz", Sample.xyz_parser ["xyz"])] _ eq_refl)).
    reflexivity.
  - apply (proj2 (custom_parser_errors_pass_through Sample.split_args_from_name_or_path
                    Sample.strict_import Sample.type_name Sample.fragile_CustomParser_new
                    [TestSuiteBuilder.ByObject "XyzParser"]
                    (TestSuiteBuilder.ByObject "Weird") []
                    [("xyz", Sample.xyz_parser ["xyz"])] _ eq_refl)
             "Weird" "Weird").
    + reflexivity.
    + reflexivity.
    + discriminate.
Defined.

Lemma normalized_paths_exist_witness :
  TestSuiteBuilder._normalize_paths Sample.normpath Sample.absolute Sample.path_exists
    Sample.seq2str ["suite"; "other"] = Ok ["/work/suite"; "/work/other"] /\
  Forall (fun p => Sample.path_exists p = true) ["/work/suite"; "/work/other"].
Proof.
  split; [reflexivity|].
  apply (normalized_paths_exist Sample.normpath Sample.absolute Sample.path_exists
           Sample.seq2str ["suite"; "other"] ["/work/suite"; "/work/other"] eq_refl).
Defined.

Lemma strict_build_has_tests_everywhere_witness :
  exists tree,
    Sample.build ["plain"; "tests"] (Sample.builder [] None false) ["suite"] = Ok tree /\
    pruned tree = true /\ TestSuite.has_tests tree = true /\
    map TestSuite.name (TestSuite.suites tree) = ["Tests"].
Proof.
  eexists. split; [vm_compute; reflexivity|].
  destruct (strict_build_has_tests_everywhere Sample.normpath Sample.absolute
              Sample.path_exists Sample.is_file Sample.suffix Sample.lower Sample.seq2str
              Sample.no_init_parser (Sample.walker ["plain"; "tests"])
              (Sample.builder [] None false) ["suite"] _ eq_refl eq_refl
              ltac:(vm_compute; reflexivity)) as (Hpruned & Hroot & _).
  split; [exact Hpruned|]. split; [apply Hroot; simpl; lia | reflexivity].
Defined.

(** ** More on the visitor *)

Section VisitorCoverage.
Import SuiteStructureParser Visitor.

Lemma foldM_Raise {A S} (f : A -> S -> result S) (l : list A) :
  forall s e, foldM f l s = Raise e ->
    exists before a after s',
      l = before ++ a :: after /\ foldM f before s = Ok s' /\ f a s' = Raise e.
Proof.
  induction l as [|a l IH]; intros s e H; simpl in H; [discriminate|].
  destruct (f a s) as [s1|e1] eqn:Ha; simpl in H.
  - destruct (IH _ _ H) as (before & b & after & s' & -> & Hbefore & Hb).
    exists (a :: before), b, after, s'. simpl. rewrite Ha. simpl. auto.
  - injection H as <-. exists [], a, l, s. auto.
Qed.

Lemma attach_root new self ref self' :
  attach new self = Ok (ref, self') ->
  suite self' =
    match suite self with
    | Some root => Some root
    | None => Some (length (heap self))
    end.
Proof.
  unfold attach, allocate. intros H. destruct (suite self) as [root|] eqn:Hroot.
  - destruct (_stack self) as [|[top d] rest]; [discriminate|].
    destruct (_ !! top); [|discriminate]. injection H as <- <-. exact Hroot.
  - injection H as <- <-. reflexivity.
Qed.

Lemma visit_root structure self self' :
  visit structure self = Ok self' ->
  suite self' =
    match suite self with
    | Some root => Some root
    | None => Some (length (heap self))
    end.
Proof.
  intros H. destruct (suite self) as [root|] eqn:Hroot.
  - apply (visit_keeps_objects _ _ _ H). exact Hroot.
  - destruct structure as [src ext|src init ext multi cs].
    + unfold visit, visit_file in H.
      apply bind_Ok in H as ([suite1 self1] & H1 & H).
      apply bind_Ok in H as ([ref self2] & H2 & H). injection H as <-.
      apply build_suite_file_frame in H1 as (_ & _ & Hr & Hh).
      rewrite (attach_root _ _ _ _ H2), Hr, Hroot, Hh. reflexivity.
    + rewrite visit_directory_eq in H.
      apply bind_Ok in H as (self1 & H1 & H).
      apply bind_Ok in H as (self2 & H2 & H3).
      assert (suite self1 = Some (length (heap self))) as Hroot1.
      { unfold start_directory in H1.
        apply bind_Ok in H1 as ([suite1 defaults] & _ & H1).
        apply bind_Ok in H1 as ([ref self0] & Hattach & H1). injection H1 as <-.
        simpl. rewrite (attach_root _ _ _ _ Hattach), Hroot. reflexivity. }
      apply (end_directory_keeps_objects _ _ _ H3).
      apply (foldM_preorder visit keeps_objects cs
               ltac:(apply Forall_forall; intros c _ s s' Hc;
                     exact (visit_keeps_objects c s s' Hc)) _ _ H2).
      exact Hroot1.
Qed.

(** X7. A visit leaves the visitor balanced: when the visit of a node
    returns, the stack is what it was before (every frame pushed for a
    directory below has been popped), [parsers] and [_rpa_given] are
    untouched, and the root is the one there was, or else the suite of
    this node. *)
Theorem visit_leaves_visitor_balanced structure self self' :
  visit structure self = Ok self' ->
  _stack self' = _stack self /\
  parsers self' = parsers self /\
  _rpa_given self' = _rpa_given self /\
  suite self' =
    match suite self with
    | Some root => Some root
    | None => Some (length (heap self))
    end.
Proof.
  intros H. destruct (visit_frame _ _ _ H) as ([Hps Hgiven] & Hstack & _).
  pose proof (visit_root _ _ _ H). auto.
Qed.

(** X8. Every child of a directory is visited with the defaults that the
    parse of the directory's init file left, however many siblings were
    visited before it: the visits of the siblings leave the defaults on the
    stack alone. *)
Theorem children_inherit_directory_defaults structure before self self1 self2 :
  start_directory structure self = Ok self1 ->
  foldM visit before self1 = Ok self2 ->
  exists built defaults,
    _build_suite_directory structure self = Ok (built, defaults) /\
    parent_defaults self2 = Some defaults /\
    file_defaults self2 = defaults.
Proof.
  intros Hstart Hbefore.
  apply start_directory_frame in Hstart as (_ & _ & _ & built & defaults & Hbuilt & Hstack).
  apply visit_children_frame in Hbefore as (_ & Hsame).
  exists built, defaults. split; [exact Hbuilt|].
  unfold file_defaults, parent_defaults. rewrite Hsame, Hstack. auto.
Qed.

(** *** The visitor raises nothing of its own *)

Lemma build_suite_file_external structure self e :
  (forall key parser, dict_get key (parsers self) = Some parser -> well_behaved parser) ->
  _build_suite_file structure self = Raise e -> internal e = false.
Proof.
  intros Hsane. unfold _build_suite_file, getitem.
  destruct (dict_get _ (parsers self)) as [parser|] eqn:Hget; simpl;
    [|intros [= <-]; reflexivity].
  destruct (Hsane _ _ Hget) as [Hfile _].
  destruct (parse_suite_file parser _ _) as [parsed|e1] eqn:Hparse; simpl.
  - unfold _validate_execution_mode.
    destruct (_rpa_given self); [discriminate|].
    destruct (TestSuite.rpa parsed) as [mode|]; [|discriminate].
    destruct (rpa self) as [running|]; [|discriminate].
    destruct (negb (eqb running mode)); [|discriminate].
    destruct mode; simpl; intros [= <-]; reflexivity.
  - specialize (Hfile _ _ _ Hparse).
    destruct e1; simpl; intros [= <-]; solve [reflexivity | exact Hfile].
Qed.

Lemma build_suite_directory_external structure self e :
  (forall key parser, dict_get key (parsers self) = Some parser -> well_behaved parser) ->
  _build_suite_directory structure self = Raise e -> internal e = false.
Proof.
  intros Hsane. unfold _build_suite_directory, getitem.
  destruct (dict_get _ (parsers self)) as [parser|] eqn:Hget; simpl;
    [|intros [= <-]; reflexivity].
  destruct (Hsane _ _ Hget) as [_ Hinit].
  destruct (parse_init_file parser _ _) as [[parsed defaults]|e1] eqn:Hparse; simpl;
    [discriminate|].
  specialize (Hinit _ _ _ Hparse).
  destruct e1; simpl; intros [= <-]; solve [reflexivity | exact Hinit].
Qed.

Lemma visit_external structure :
  forall self e,
    wf self -> attachable self ->
    (forall key parser, dict_get key (parsers self) = Some parser -> well_behaved parser) ->
    visit structure self = Raise e -> internal e = false.
Proof.
  induction structure as [src ext|src init ext multi cs IH] using SuiteStructure_ind';
    intros self e Hwf Hatt Hsane H.
  - rewrite visit_file_eq in H. unfold visit_file in H.
    destruct (_build_suite_file _ self) as [[suite1 self1]|e1] eqn:Hbuild; simpl in H.
    + pose proof (build_suite_file_frame _ _ _ _ Hbuild) as (_ & Hst & Hroot & Hh).
      destruct (attach_succeeds suite1 self1) as [self2 Hattach].
      * exact (wf_same _ _ Hh Hst Hroot Hwf).
      * unfold attachable in *. rewrite Hst, Hroot. exact Hatt.
      * rewrite Hattach in H. discriminate.
    + injection H as <-. exact (build_suite_file_external _ _ _ Hsane Hbuild).
  - rewrite visit_directory_eq in H.
    destruct (start_directory _ self) as [self1|e1] eqn:Hstart; simpl in H.
    + pose proof (start_directory_wf _ _ _ Hstart Hwf) as Hwf1.
      apply start_directory_frame in Hstart as ([Hps1 _] & _ & _ & s1 & d1 & _ & Hst1).
      assert (_stack self1 <> []) as Hne1 by (rewrite Hst1; discriminate).
      destruct (foldM visit cs self1) as [self2|e2] eqn:Hchildren; simpl in H.
      * destruct (end_directory_succeeds (SuiteDirectory src init ext multi cs) self2)
          as [self3 Hend].
        -- exact (visit_children_wf _ _ _ Hchildren Hwf1).
        -- apply visit_children_frame in Hchildren as (_ & Hst2). congruence.
        -- rewrite Hend in H. discriminate.
      * injection H as <-.
        apply foldM_Raise in Hchildren as (before & c & after & selfc & -> & Hbefore & Hc).
        apply Forall_app in IH as [_ IH]. apply Forall_cons in IH as [IHc _].
        pose proof (visit_children_frame _ _ _ Hbefore) as ([Hpsc _] & Hstc).
        apply (IHc selfc e2).
        -- exact (visit_children_wf _ _ _ Hbefore Hwf1).
        -- right. congruence.
        -- rewrite Hpsc, Hps1. exact Hsane.
        -- exact Hc.
    + injection H as <-. unfold start_directory in Hstart.
      destruct (_build_suite_directory _ self) as [[suite1 defaults]|e0] eqn:Hbuild;
        simpl in Hstart.
      * destruct (attach_succeeds suite1 self Hwf Hatt) as [self0 Hattach].
        rewrite Hattach in Hstart. discriminate.
      * injection Hstart as <-. exact (build_suite_directory_external _ _ _ Hsane Hbuild).
Qed.

(** X9. [parse] raises nothing of its own making: with parsers that raise
    no [IndexError], [AttributeError] or [SystemError], [parse] on a fresh
    visitor raises none either, whatever the structure.  The stack is never
    found empty, the root is never missing and no suite is lost; what is
    left are the [KeyError] of a missing parser, the [DataError]s and
    whatever else the parsers raise. *)
Theorem parse_raises_nothing_internal ps mode root e :
  (forall key parser, dict_get key ps = Some parser -> well_behaved parser) ->
  parse root (__init__ ps mode) = Raise e ->
  internal e = false.
Proof.
  intros Hsane H.
  destruct (visit root (__init__ ps mode)) as [self'|e1] eqn:Hvisit.
  - destruct (parse_reads_back _ _ _ (wf_init _ _) Hvisit)
      as (r & o & tree & _ & _ & Hparse & _).
    congruence.
  - rewrite (parse_raises _ _ _ Hvisit) in H. injection H as <-.
    exact (visit_external _ _ _ (wf_init _ _) (or_introl eq_refl) Hsane Hvisit).
Qed.
End VisitorCoverage.

Lemma visit_leaves_visitor_balanced_witness :
  exists self',
    SuiteStructureParser.visit (Sample.directory ["plain"; "tests"])
      (SuiteStructureParser.__init__ Sample.parsers None) = Ok self' /\
    SuiteStructureParser._stack self' = [] /\
    SuiteStructureParser.suite self' = Some 0.
Proof.
  eexists. split; [vm_compute; reflexivity|].
  destruct (visit_leaves_visitor_balanced (Sample.directory ["plain"; "tests"])
              (SuiteStructureParser.__init__ Sample.parsers None) _
              ltac:(vm_compute; reflexivity)) as (Hstack & _ & _ & Hroot).
  split; [exact Hstack | exact Hroot].
Defined.

Lemma children_inherit_directory_defaults_witness :
  exists self1 self2,
    SuiteStructureParser.start_directory (Sample.directory_with_init ["plain"; "tests"])
      (SuiteStructureParser.__init__ Sample.parsers None) = Ok self1 /\
    foldM SuiteStructureParser.visit [Sample.file "plain"] self1 = Ok self2 /\
    Visitor.file_defaults self2 = Defaults None ["timeout=1s"].
Proof.
  eexists. eexists. split; [vm_compute; reflexivity|]. split; [vm_compute; reflexivity|].
  destruct (children_inherit_directory_defaults
              (Sample.directory_with_init ["plain"; "tests"]) [Sample.file "plain"]
              (SuiteStructureParser.__init__ Sample.parsers None) _ _
              ltac:(vm_compute; reflexivity) ltac:(vm_compute; reflexivity))
    as (built & defaults & Hbuilt & _ & Hdefaults).
  vm_compute in Hbuilt. injection Hbuilt as _ <-. exact Hdefaults.
Defined.

Lemma careful_parsers_well_behaved key parser :
  dict_get key Sample.careful_parsers = Some parser -> well_behaved parser.
Proof.
  unfold Sample.careful_parsers. simpl.
  destruct (decide (key = None)) as [Hnone|Hsome]; [intros [= <-]|].
  - split; simpl; intros source defaults e; [intros [= <-]; reflexivity | discriminate].
  - destruct (decide (key = Some "robot")) as [Hrobot|Hother]; [intros [= <-]|discriminate].
    split; simpl; intros source defaults e.
    + destruct (bool_decide _); [discriminate | intros [= <-]; reflexivity].
    + intros [= <-]. reflexivity.
Qed.

Lemma parse_raises_nothing_internal_witness :
  SuiteStructureParser.parse
    (SuiteDirectory (Some "/work/suite") None None false
       [Sample.file "tests"; SuiteFile "/work/suite/notes.txt" (Some "txt")])
    (SuiteStructureParser.__init__ Sample.careful_parsers None) = Raise KeyError /\
  internal KeyError = false.
Proof.
  split; [vm_compute; reflexivity|].
  apply (parse_raises_nothing_internal Sample.careful_parsers None
           (SuiteDirectory (Some "/work/suite") None None false
              [Sample.file "tests"; SuiteFile "/work/suite/notes.txt" (Some "txt")])
           KeyError careful_parsers_well_behaved).
  vm_compute. reflexivity.
Defined.

(** ** Without an override: one mode or a conflict *)

Section VisitorConsistency.
Import SuiteStructureParser Visitor.

Lemma validate_agrees suite self suite' self' mode :
  _validate_execution_mode suite self = Ok (suite', self') ->
  _rpa_given self = false ->
  TestSuite.rpa suite = Some mode ->
  rpa self' = Some mode.
Proof.
  unfold _validate_execution_mode. intros H Hgiven Hmode. rewrite Hgiven, Hmode in H.
  destruct (rpa self) as [running|] eqn:Hrunning.
  - destruct running, mode; simpl in H; try discriminate; injection H as <- <-; exact Hrunning.
  - injection H as <- <-. reflexivity.
Qed.

Lemma reconciled_keeps self declared mode :
  rpa self = Some mode -> reconciled self declared = Some mode.
Proof. unfold reconciled. intros ->. destruct (_rpa_given self); reflexivity. Qed.

(** The modes the files under a directory declare are those of its
    children, parsed with the defaults of the directory. *)
Lemma declared_modes_directory src init ext multi cs self built defaults :
  _build_suite_directory (SuiteDirectory src init ext multi cs) self = Ok (built, defaults) ->
  declared_modes (parsers self) (parent_defaults self) (SuiteDirectory src init ext multi cs)
    = flat_map (declared_modes (parsers self) (Some defaults)) cs.
Proof.
  unfold _build_suite_directory, getitem. simpl. intros H.
  destruct (dict_get ext (parsers self)) as [parser|]; [|discriminate].
  simpl in H. apply except_DataError_Ok in H.
  apply bind_Ok in H as ([parsed d] & Hinit & H). injection H as _ <-.
  rewrite Hinit. reflexivity.
Qed.

Lemma visit_children_modes_agree cs :
  Forall (fun c => forall self self',
            visit c self = Ok self' -> _rpa_given self = false ->
            Forall (fun m => rpa self' = Some m)
                   (declared_modes (parsers self) (parent_defaults self) c)) cs ->
  forall self self',
    foldM visit cs self = Ok self' -> _rpa_given self = false ->
    Forall (fun m => rpa self' = Some m)
           (flat_map (declared_modes (parsers self) (parent_defaults self)) cs).
Proof.
  induction 1 as [|c cs Hc _ IH]; intros self self' H Hgiven; simpl; [constructor|].
  simpl in H. apply bind_Ok in H as (selfc & Hvc & H).
  destruct (visit_frame _ _ _ Hvc) as ([Hpsc Hgc] & Hstc & _).
  apply Forall_app. split.
  - eapply Forall_impl; [exact (Hc _ _ Hvc Hgiven)|]. simpl. intros m Hm.
    rewrite (visit_children_rpa _ _ _ H). apply reconciled_keeps. exact Hm.
  - specialize (IH _ _ H ltac:(congruence)).
    unfold parent_defaults in *. rewrite Hpsc, Hstc in IH. exact IH.
Qed.

Lemma visit_modes_agree structure :
  forall self self',
    visit structure self = Ok self' -> _rpa_given self = false ->
    Forall (fun m => rpa self' = Some m)
           (declared_modes (parsers self) (parent_defaults self) structure).
Proof.
  induction structure as [src ext|src init ext multi cs IH] using SuiteStructure_ind';
    intros self self' H Hgiven.
  - unfold visit, visit_file, _build_suite_file, getitem in H. simpl in *.
    apply bind_Ok in H as ([suite1 self1] & H1 & H).
    apply bind_Ok in H as ([ref self2] & H2 & H). injection H as <-.
    apply attach_frame in H2 as (_ & _ & -> & _).
    destruct (dict_get ext (parsers self)) as [parser|]; [|discriminate].
    simpl in H1. apply except_DataError_Ok in H1.
    apply bind_Ok in H1 as (parsed & Hparsed & H1). rewrite Hparsed.
    destruct (TestSuite.rpa parsed) as [mode|] eqn:Hmode; constructor; [|constructor].
    exact (validate_agrees _ _ _ _ _ H1 Hgiven Hmode).
  - rewrite visit_directory_eq in H.
    apply bind_Ok in H as (self1 & H1 & H).
    apply bind_Ok in H as (self2 & H2 & H3).
    apply end_directory_frame in H3 as (_ & -> & _).
    apply start_directory_frame in H1 as ([Hps Hg] & _ & _ & s1 & d & Hbuild & Hst1).
    rewrite (declared_modes_directory _ _ _ _ _ _ _ _ Hbuild).
    pose proof (visit_children_modes_agree cs IH self1 self2 H2 ltac:(congruence)) as Hall.
    unfold parent_defaults in Hall at 1. rewrite Hst1, Hps in Hall. exact Hall.
Qed.

(** X10. If [parse] returns for a build without override, the files agree:
    every mode that a file of the structure declares is the mode of the
    root of the returned suite. *)
Theorem parsed_files_agree_on_mode ps root tree :
  parse root (__init__ ps None) = Ok tree ->
  Forall (fun m => TestSuite.rpa tree = Some m) (declared_modes ps None root).
Proof.
  intros Hparse. destruct (parse_Ok _ _ _ Hparse) as [self' Hvisit].
  destruct (parse_reads_back _ _ _ (wf_init _ _) Hvisit)
    as (r & o & tree' & _ & _ & Hparse' & _ & _ & Hrpa).
  rewrite Hparse in Hparse'. injection Hparse' as <-. rewrite Hrpa.
  exact (visit_modes_agree _ _ _ Hvisit eq_refl).
Qed.

Lemma agrees_first_mode mode running declared rest :
  agrees mode running (declared ++ rest) ->
  agrees mode (first_mode running declared) rest.
Proof.
  intros [Hrunning Hall]. apply Forall_app in Hall as [Hd Hr]. split; [|exact Hr].
  destruct Hrunning as [->| ->]; [|right; reflexivity]. simpl.
  destruct Hd as [|m l ->]; [left | right]; reflexivity.
Qed.

Lemma visit_file_succeeds_agreeing src ext self mode :
  wf self -> attachable self -> _rpa_given self = false ->
  parsers_succeed (parsers self) (parent_defaults self) (SuiteFile src ext) = true ->
  agrees mode (rpa self)
    (declared_modes (parsers self) (parent_defaults self) (SuiteFile src ext)) ->
  exists self', visit_file (SuiteFile src ext) self = Ok self'.
Proof.
  intros Hwf Hatt Hgiven Hps [Hrunning Hall].
  unfold visit_file, _build_suite_file, getitem. simpl in *.
  destruct (dict_get ext (parsers self)) as [parser|]; [|discriminate].
  simpl. destruct (parse_suite_file parser (Some src) _) as [parsed|]; [|discriminate].
  simpl.
  assert (exists self1, _validate_execution_mode parsed self = Ok (parsed, self1))
    as [self1 Hvalid].
  { unfold _validate_execution_mode. rewrite Hgiven.
    destruct (TestSuite.rpa parsed) as [m|]; [|eauto].
    apply Forall_cons in Hall as [-> _].
    destruct Hrunning as [->| ->]; [eauto|].
    destruct mode; simpl; eauto. }
  rewrite Hvalid. simpl.
  pose proof (validate_frame _ _ _ _ Hvalid) as (_ & Hst & Hroot & Hh).
  destruct (attach_succeeds parsed self1) as [self' Hattach].
  - exact (wf_same _ _ Hh Hst Hroot Hwf).
  - unfold attachable in *. rewrite Hst, Hroot. exact Hatt.
  - rewrite Hattach. simpl. eauto.
Qed.

Lemma visit_succeeds_agreeing structure mode :
  forall self,
    wf self -> attachable self -> _rpa_given self = false ->
    parsers_succeed (parsers self) (parent_defaults self) structure = true ->
    agrees mode (rpa self)
      (declared_modes (parsers self) (parent_defaults self) structure) ->
    exists self', visit structure self = Ok self'.
Proof.
  induction structure as [src ext|src init ext multi cs IH] using SuiteStructure_ind';
    intros self Hwf Hatt Hgiven Hps Hagree.
  - rewrite visit_file_eq. eapply visit_file_succeeds_agreeing; eassumption.
  - rewrite visit_directory_eq.
    destruct (start_directory_succeeds _ _ _ _ _ _ Hwf Hatt Hps)
      as (self1 & defaults & Hstart & Hpd & Hcs).
    rewrite Hstart. simpl.
    pose proof (start_directory_wf _ _ _ Hstart Hwf) as Hwf1.
    apply start_directory_frame in Hstart
      as ([Hps1 Hg1] & Hrpa1 & _ & s1 & d1 & Hbuild & Hst1).
    rewrite (declared_modes_directory _ _ _ _ _ _ _ _ Hbuild) in Hagree.
    assert (d1 = defaults) as ->
      by (unfold parent_defaults in Hpd; rewrite Hst1 in Hpd; congruence).
    assert (_stack self1 <> []) as Hne1 by (rewrite Hst1; discriminate).
    rewrite <- Hps1, <- Hpd in Hcs, Hagree. rewrite <- Hrpa1 in Hagree.
    rewrite <- Hg1 in Hgiven.
    clear Hst1 Hpd Hps Hps1 Hg1 Hatt Hwf Hrpa1 Hbuild.
    assert (exists self2, foldM visit cs self1 = Ok self2 /\ wf self2 /\ _stack self2 <> [])
      as (self2 & -> & Hwf2 & Hne2).
    { revert self1 Hwf1 Hne1 Hgiven Hcs Hagree.
      induction IH as [|c cs Hc _ IHcs]; intros self1 Hwf1 Hne1 Hgiven Hcs Hagree; simpl.
      - eauto.
      - simpl in Hcs, Hagree. apply andb_true_iff in Hcs as [Hc1 Hcs].
        destruct (Hc self1 Hwf1 (or_intror Hne1) Hgiven Hc1) as [selfc Hvc].
        { destruct Hagree as [Hrun Hall]. apply Forall_app in Hall as [Hall _].
          split; assumption. }
        rewrite Hvc. simpl.
        destruct (visit_frame _ _ _ Hvc) as ([Hpsc Hgc] & Hstc & _).
        apply IHcs.
        + exact (visit_wf _ _ _ Hvc Hwf1).
        + rewrite Hstc. exact Hne1.
        + rewrite Hgc. exact Hgiven.
        + unfold parent_defaults in *. rewrite Hpsc, Hstc. exact Hcs.
        + apply agrees_first_mode in Hagree.
          rewrite (visit_rpa _ _ _ Hvc). unfold reconciled. rewrite Hgiven.
          unfold parent_defaults in *. rewrite Hpsc, Hstc. exact Hagree. }
    simpl. apply end_directory_succeeds; assumption.
Qed.

(** X11. Without an override, only a parser or a disagreement can make
    [parse] fail: whenever the parsers succeed on the nodes of the
    structure and no two files declare different modes, [parse] returns a
    suite. *)
Theorem agreeing_files_parse ps root :
  parsers_succeed ps None root = true ->
  (forall m m', m ∈ declared_modes ps None root -> m' ∈ declared_modes ps None root ->
                m = m') ->
  exists tree, parse root (__init__ ps None) = Ok tree.
Proof.
  intros Hps Hsame.
  destruct (visit_succeeds_agreeing root
              (default false (head (declared_modes ps None root)))
              (__init__ ps None) (wf_init _ _) (or_introl eq_refl) eq_refl Hps)
    as [self' Hvisit].
  { split; [left; reflexivity|].
    change (parent_defaults (__init__ ps None)) with (@None TestDefaults).
    change (parsers (__init__ ps None)) with ps.
    destruct (declared_modes ps None root) as [|m0 l] eqn:Hmodes; [constructor|].
    apply Forall_forall. intros m Hm. apply Hsame; [exact Hm | left]. }
  destruct (parse_reads_back _ _ _ (wf_init _ _) Hvisit)
    as (r & o & tree & _ & _ & Hparse & _).
  eauto.
Qed.
End VisitorConsistency.

Lemma parsed_files_agree_on_mode_witness :
  exists tree,
    SuiteStructureParser.parse (Sample.directory ["plain"; "tasks"; "tasks"])
      (SuiteStructureParser.__init__ Sample.parsers None) = Ok tree /\
    Visitor.declared_modes Sample.parsers None (Sample.directory ["plain"; "tasks"; "tasks"])
      = [true; true] /\
    Forall (fun m => TestSuite.rpa tree = Some m) [true; true].
Proof.
  eexists. split; [vm_compute; reflexivity|]. split; [reflexivity|].
  apply (parsed_files_agree_on_mode Sample.parsers
           (Sample.directory ["plain"; "tasks"; "tasks"])).
  vm_compute. reflexivity.
Defined.

Lemma agreeing_files_parse_witness :
  exists tree,
    SuiteStructureParser.parse (Sample.directory ["tests"; "plain"; "tests"])
      (SuiteStructureParser.__init__ Sample.parsers None) = Ok tree.
Proof.
  apply (agreeing_files_parse Sample.parsers (Sample.directory ["tests"; "plain"; "tests"])).
  - reflexivity.
  - intros m m' Hm Hm'. vm_compute in Hm, Hm'.
    apply list_elem_of_In in Hm, Hm'. simpl in Hm, Hm'.
    destruct Hm as [<-|[<-|[]]], Hm' as [<-|[<-|[]]]; reflexivity.
Defined.

(** ** The visitor computes the suite of the structure *)

Section VisitorRefinement.
Import SuiteStructureParser Visitor Reference.

Lemma child_objects_cons c cs base :
  child_objects (c :: cs) base =
  (base :: (child_objects cs (base + length (objects c base))).1,
   objects c base ++ (child_objects cs (base + length (objects c base))).2).
Proof.
  change (child_objects (c :: cs) base)
    with (let '(refs, rest) := child_objects cs (base + length (objects c base)) in
          (base :: refs, objects c base ++ rest)).
  destruct (child_objects cs (base + length (objects c base))); reflexivity.
Qed.

Lemma child_objects_snoc cs c :
  forall base,
    child_objects (cs ++ [c]) base =
    ((child_objects cs base).1 ++ [base + length (child_objects cs base).2],
     (child_objects cs base).2 ++ objects c (base + length (child_objects cs base).2)).
Proof.
  induction cs as [|k cs IH]; intros base.
  - simpl. rewrite Nat.add_0_r, app_nil_r. reflexivity.
  - change (child_objects ((k :: cs) ++ [c]) base)
      with (let '(refs, rest) := child_objects (cs ++ [c]) (base + length (objects k base)) in
            (base :: refs, objects k base ++ rest)).
    change (child_objects (k :: cs) base)
      with (let '(refs, rest) := child_objects cs (base + length (objects k base)) in
            (base :: refs, objects k base ++ rest)).
    rewrite IH. destruct (child_objects cs (base + length (objects k base))) as [refs rest].
    simpl. rewrite length_app, Nat.add_assoc, <- app_assoc. reflexivity.
Qed.

(** Appending a child to a suite: its objects follow the suite's, and the
    suite's own object gets the reference. *)
Lemma objects_snoc n src ts cs c mode base :
  objects (TestSuite.Suite n src ts (cs ++ [c]) mode) base =
  alter (append_suite (base + length (objects (TestSuite.Suite n src ts cs mode) base))) 0
        (objects (TestSuite.Suite n src ts cs mode) base)
  ++ objects c (base + length (objects (TestSuite.Suite n src ts cs mode) base)).
Proof.
  rewrite !objects_unfold, child_objects_snoc. simpl.
  unfold append_suite. simpl.
  replace (base + S (length (child_objects cs (S base)).2))
    with (S (base + length (child_objects cs (S base)).2)) by lia.
  reflexivity.
Qed.

Lemma objects_assign_rpa n src ts cs mode mode' base :
  alter (assign_rpa mode') 0 (objects (TestSuite.Suite n src ts cs mode) base) =
  objects (TestSuite.Suite n src ts cs mode') base.
Proof. rewrite !objects_unfold. reflexivity. Qed.

Lemma objects_set_rpa tree mode base :
  alter (assign_rpa mode) 0 (objects tree base) = objects (TestSuite.set_rpa tree mode) base.
Proof. destruct tree. apply objects_assign_rpa. Qed.

Lemma prefix_length self : length (prefix self) = length (heap self).
Proof.
  unfold prefix. destruct (suite self); [|reflexivity].
  destruct (_stack self) as [|[top d] rest]; [reflexivity|]. apply length_alter.
Qed.

(** [attach] in closed form. *)
Lemma attach_placed tree self :
  wf self -> attachable self ->
  attach tree self = Ok (length (heap self), placed self tree (rpa self)).
Proof.
  intros [Hstore Hstack Hsuite Hroot] Hatt. unfold attach, allocate, placed, prefix.
  destruct (suite self) as [root|] eqn:Hr; [|reflexivity].
  destruct Hatt as [Hnone|Hne]; [congruence|].
  destruct (_stack self) as [|[top d] rest] eqn:Hst; [congruence|].
  apply Forall_cons in Hstack as [Htop _]. simpl in Htop.
  destruct (lookup_lt_is_Some_2 (heap self ++ objects tree (length (heap self))) top)
    as [o Ho]; [rewrite length_app; lia|].
  rewrite Ho. unfold with_heap. simpl. rewrite Hr, Hst.
  rewrite alter_app_l by exact Htop. reflexivity.
Qed.

Lemma wf_placed tree self running :
  wf self -> attachable self -> wf (placed self tree running).
Proof.
  intros Hwf Hatt.
  destruct (attach_wf tree self _ _ Hwf (attach_placed tree self Hwf Hatt)) as [H _].
  revert H. apply wf_same; reflexivity.
Qed.

Lemma wf_inside self d tree running :
  wf self -> attachable self -> wf (inside self d tree running).
Proof.
  intros Hwf Hatt. destruct (wf_placed tree self running Hwf Hatt) as [H1 H2 H3 H4].
  split; simpl in *.
  - exact H1.
  - constructor; [|exact H2]. simpl.
    rewrite length_app, prefix_length.
    pose proof (objects_length_pos tree (length (heap self))). lia.
  - exact H3.
  - intros _. destruct (suite self); discriminate.
Qed.

Lemma validate_reconcile parsed self :
  _validate_execution_mode parsed self =
  let* '(tree, running) := reconcile (_rpa_given self) (rpa self) parsed in
  Ok (tree, with_rpa self running).
Proof.
  unfold _validate_execution_mode, reconcile. destruct self as [ps r g root st h]. simpl.
  destruct g; [reflexivity|].
  destruct (TestSuite.rpa parsed) as [mode|]; [|reflexivity].
  destruct r as [running|]; [|reflexivity].
  destruct running, mode; reflexivity.
Qed.

Lemma build_suite_file_eq src ext self :
  _build_suite_file (SuiteFile src ext) self =
  let* '(tree, running) :=
    suite_of_file (parsers self) (_rpa_given self) (parent_defaults self) src ext (rpa self) in
  Ok (tree, with_rpa self running).
Proof.
  unfold _build_suite_file, suite_of_file. simpl.
  destruct (getitem (parsers self) ext) as [parser|e]; [|reflexivity]. simpl.
  destruct (parse_suite_file parser (Some src) _) as [parsed|e]; simpl.
  - rewrite validate_reconcile.
    destruct (reconcile (_rpa_given self) (rpa self) parsed) as [[tree running]|[]];
      reflexivity.
  - destruct e; reflexivity.
Qed.

Lemma build_suite_directory_eq src init ext multi cs self :
  _build_suite_directory (SuiteDirectory src init ext multi cs) self =
  suite_of_init_file (parsers self) (parent_defaults self) src init ext multi.
Proof. reflexivity. Qed.

(** A file: the suite of the file is attached. *)
Lemma visit_file_placed src ext self :
  wf self -> attachable self ->
  visit (SuiteFile src ext) self =
  let* '(tree, running) :=
    suite_of (parsers self) (_rpa_given self) (parent_defaults self)
      (SuiteFile src ext) (rpa self) in
  Ok (placed self tree running).
Proof.
  intros Hwf Hatt. simpl. unfold visit_file. rewrite build_suite_file_eq.
  destruct (suite_of_file _ _ _ _ _ _) as [[tree running]|e]; [|reflexivity]. simpl.
  rewrite attach_placed.
  - reflexivity.
  - revert Hwf. apply wf_same; reflexivity.
  - exact Hatt.
Qed.

(** Entering a directory: its own suite is attached and opened. *)
Lemma start_directory_inside src init ext multi cs self :
  wf self -> attachable self ->
  start_directory (SuiteDirectory src init ext multi cs) self =
  let* '(built, defaults) :=
    suite_of_init_file (parsers self) (parent_defaults self) src init ext multi in
  Ok (inside self defaults built (rpa self)).
Proof.
  intros Hwf Hatt. unfold start_directory. rewrite build_suite_directory_eq.
  destruct (suite_of_init_file _ _ _ _ _ _) as [[built defaults]|e]; [|reflexivity].
  simpl. rewrite attach_placed by assumption. reflexivity.
Qed.

Local Arguments objects : simpl never.

(** Attaching a child inside a directory extends the directory's suite. *)
Lemma placed_inside self d n src ts cs mode running child running' :
  placed (inside self d (TestSuite.Suite n src ts cs mode) running) child running' =
  inside self d (TestSuite.Suite n src ts (cs ++ [child]) mode) running'.
Proof.
  unfold inside, placed at 1, prefix at 1, with_stack. simpl.
  set (P := TestSuite.Suite n src ts cs mode).
  assert (length (prefix self ++ objects P (length (heap self))) =
          length (heap self) + length (objects P (length (heap self)))) as Hlen.
  { rewrite length_app, prefix_length. reflexivity. }
  rewrite Hlen.
  assert (alter (append_suite (length (heap self) + length (objects P (length (heap self)))))
                (length (heap self)) (prefix self ++ objects P (length (heap self)))
          ++ objects child (length (heap self) + length (objects P (length (heap self))))
          = prefix self ++
            objects (TestSuite.Suite n src ts (cs ++ [child]) mode) (length (heap self)))
    as Hheap.
  { rewrite objects_snoc. fold P.
    rewrite alter_app_r_alt by (rewrite prefix_length; lia).
    rewrite prefix_length, Nat.sub_diag, <- app_assoc. reflexivity. }
  unfold placed. simpl.
  destruct (suite self); simpl; rewrite Hheap; reflexivity.
Qed.

(** The children of a directory, one after the other. *)
Lemma visit_children_inside self d n src ts mode cs :
  wf self -> attachable self ->
  Forall (fun c => forall st, wf st -> attachable st ->
            visit c st =
            let* '(tree, running) :=
              suite_of (parsers st) (_rpa_given st) (parent_defaults st) c (rpa st) in
            Ok (placed st tree running)) cs ->
  forall seen running,
    foldM visit cs (inside self d (TestSuite.Suite n src ts seen mode) running) =
    let* '(below, running') :=
      suites_of (parsers self) (_rpa_given self) (Some d) cs running in
    Ok (inside self d (TestSuite.Suite n src ts (seen ++ below) mode) running').
Proof.
  intros Hwf Hatt IH. induction IH as [|c cs Hc _ IHcs]; intros seen running.
  - simpl. rewrite app_nil_r. reflexivity.
  - simpl. rewrite Hc.
    + change (parsers (inside self d (TestSuite.Suite n src ts seen mode) running))
        with (parsers self).
      change (_rpa_given (inside self d (TestSuite.Suite n src ts seen mode) running))
        with (_rpa_given self).
      change (parent_defaults (inside self d (TestSuite.Suite n src ts seen mode) running))
        with (Some d).
      change (rpa (inside self d (TestSuite.Suite n src ts seen mode) running))
        with running.
      destruct (suite_of (parsers self) (_rpa_given self) (Some d) c running)
        as [[child running1]|e]; [|reflexivity].
      simpl. rewrite placed_inside, IHcs.
      destruct (suites_of (parsers self) (_rpa_given self) (Some d) cs running1)
        as [[rest running2]|e]; [|reflexivity].
      simpl. rewrite <- app_assoc. reflexivity.
    + apply wf_inside; assumption.
    + right. discriminate.
Qed.

(** Leaving a directory: its suite gets the inferred mode and is closed. *)
Lemma end_directory_placed structure self d n src ts cs mode running :
  end_directory structure (inside self d (TestSuite.Suite n src ts cs mode) running) =
  Ok (placed self (TestSuite.Suite n src ts cs (inferred mode cs)) running).
Proof.
  unfold end_directory, inside. simpl.
  rewrite lookup_app_r by (rewrite prefix_length; lia).
  rewrite prefix_length, Nat.sub_diag, objects_unfold. simpl.
  destruct mode as [m|]; [reflexivity|].
  destruct cs as [|first rest]; [reflexivity|].
  rewrite child_objects_cons. cbn [fst snd].
  rewrite lookup_app_r by (rewrite prefix_length; lia).
  rewrite prefix_length.
  replace (S (length (heap self)) - length (heap self)) with 1 by lia.
  destruct first as [n1 src1 ts1 cs1 mode1].
  rewrite (objects_unfold n1 src1 ts1). simpl.
  unfold placed, with_heap, with_stack. simpl. f_equal. f_equal.
  rewrite alter_app_r_alt by (rewrite prefix_length; lia).
  rewrite prefix_length, Nat.sub_diag.
  rewrite (objects_unfold n src ts), child_objects_cons, (objects_unfold n1 src1 ts1).
  reflexivity.
Qed.

Lemma suite_of_directory ps given pd src init ext multi cs running :
  suite_of ps given pd (SuiteDirectory src init ext multi cs) running =
  let* '(built, defaults) := suite_of_init_file ps pd src init ext multi in
  let* '(below, running') := suites_of ps given (Some defaults) cs running in
  Ok (TestSuite.Suite (TestSuite.name built) (TestSuite.source built)
        (TestSuite.tests built) (TestSuite.suites built ++ below)
        (inferred (TestSuite.rpa built) (TestSuite.suites built ++ below)),
      running').
Proof. reflexivity. Qed.

(** A visit attaches the suite of the node, and nothing else changes but
    the running mode. *)
Lemma visit_placed structure :
  forall self, wf self -> attachable self ->
    visit structure self =
    let* '(tree, running) :=
      suite_of (parsers self) (_rpa_given self) (parent_defaults self) structure
        (rpa self) in
    Ok (placed self tree running).
Proof.
  induction structure as [src ext|src init ext multi cs IH] using SuiteStructure_ind';
    intros self Hwf Hatt.
  - apply visit_file_placed; assumption.
  - rewrite visit_directory_eq, suite_of_directory, start_directory_inside by assumption.
    destruct (suite_of_init_file _ _ _ _ _ _) as [[built defaults]|e]; [|reflexivity].
    simpl. destruct built as [n bsrc ts seen mode]. simpl.
    rewrite (visit_children_inside self defaults n bsrc ts mode cs Hwf Hatt IH).
    destruct (suites_of _ _ _ cs (rpa self)) as [[below running']|e]; [|reflexivity].
    simpl. apply end_directory_placed.
Qed.

(** [parse] is the recursion on the structure. *)
Lemma parse_parsed_suite ps mode root :
  parse root (__init__ ps mode) = parsed_suite ps mode root.
Proof.
  unfold parse, parsed_suite.
  rewrite visit_placed by (apply wf_init || (left; reflexivity)).
  change (parsers (__init__ ps mode)) with ps.
  change (_rpa_given (__init__ ps mode))
    with (match mode with Some _ => true | None => false end).
  change (parent_defaults (__init__ ps mode)) with (@None TestDefaults).
  change (rpa (__init__ ps mode)) with mode.
  destruct (suite_of ps _ None root mode) as [[tree running]|e]; [|reflexivity].
  simpl. rewrite objects_set_rpa.
  pose proof (read_suite_allocate (TestSuite.set_rpa tree running) []) as Hread.
  unfold allocate in Hread. simpl in Hread. rewrite Hread. reflexivity.
Qed.

Lemma suites_of_lookup ps given pd cs :
  forall running below running',
    suites_of ps given pd cs running = Ok (below, running') ->
    length below = length cs /\
    forall i c, cs !! i = Some c ->
      exists child before after,
        below !! i = Some child /\
        suites_of ps given pd (take i cs) running = Ok (take i below, before) /\
        suite_of ps given pd c before = Ok (child, after).
Proof.
  induction cs as [|c0 cs IH]; intros running below running' H.
  - injection H as <- _. split; [reflexivity|]. intros i c Hi. discriminate.
  - simpl in H. apply bind_Ok in H as ([child0 running1] & Hc0 & H).
    apply bind_Ok in H as ([rest running2] & Hcs & H).
    injection H as <- _. destruct (IH _ _ _ Hcs) as [Hlen Hrest].
    split; [simpl; congruence|].
    intros [|i] c Hi.
    + injection Hi as <-. exists child0, running, running1. auto.
    + destruct (Hrest i c Hi) as (child & before & after & Hchild & Htake & Hc).
      exists child, before, after. split; [exact Hchild|]. split; [|exact Hc].
      simpl. rewrite Hc0. simpl. rewrite Htake. reflexivity.
Qed.

(** X12.  [parse] on a new visitor computes the suite of the structure:
    the suite tree it reads back from the objects its callbacks created
    and linked is the one obtained by recursion on the structure -- every
    file contributes what its parser returned, reconciled with the running
    mode at that point of the traversal; every directory contributes its
    init-file suite, with the suites of its children appended in order
    and its mode inferred from the first child when it has none; the root
    finally gets the running mode -- and when [parse] raises, it raises
    what that recursion raises. *)
Theorem parse_computes_suite_of_structure ps mode root :
  parse root (__init__ ps mode) = parsed_suite ps mode root.
Proof. apply parse_parsed_suite. Qed.

(** X13.  The suite [parse] returns for a directory keeps the name, source
    and tests of the suite built from the init file, and its children are
    the children of that suite followed by one suite per child of the
    directory, in the order of the structure: the suite at position [i] is
    the suite of the child at position [i], parsed with the defaults the
    init file set and reconciled with the running mode [before] that the
    children before it leave, starting from the caller's mode. *)
Theorem directory_children_in_order ps mode src init ext multi cs tree :
  parse (SuiteDirectory src init ext multi cs) (__init__ ps mode) = Ok tree ->
  exists built defaults below,
    _build_suite_directory (SuiteDirectory src init ext multi cs) (__init__ ps mode)
      = Ok (built, defaults) /\
    TestSuite.name tree = TestSuite.name built /\
    TestSuite.source tree = TestSuite.source built /\
    TestSuite.tests tree = TestSuite.tests built /\
    TestSuite.suites tree = TestSuite.suites built ++ below /\
    length below = length cs /\
    forall i c, cs !! i = Some c ->
      exists child before after,
        below !! i = Some child /\
        suites_of ps (_rpa_given (__init__ ps mode)) (Some defaults) (take i cs) mode
          = Ok (take i below, before) /\
        suite_of ps (_rpa_given (__init__ ps mode)) (Some defaults) c before
          = Ok (child, after).
Proof.
  rewrite parse_parsed_suite. unfold parsed_suite. rewrite suite_of_directory.
  intros H. apply bind_Ok in H as ([tree0 running] & H & Htree).
  apply bind_Ok in H as ([built defaults] & Hbuilt & H).
  apply bind_Ok in H as ([below running'] & Hbelow & H).
  injection H as <- <-. injection Htree as <-.
  destruct (suites_of_lookup _ _ _ _ _ _ _ Hbelow) as [Hlen Hlookup].
  exists built, defaults, below. rewrite build_suite_directory_eq.
  repeat split; try reflexivity; assumption.
Qed.
End VisitorRefinement.

Lemma directory_children_in_order_witness :
  exists tree,
    SuiteStructureParser.parse (Sample.directory ["tests"; "plain"])
      (SuiteStructureParser.__init__ Sample.parsers None) = Ok tree /\
    exists built defaults below,
      SuiteStructureParser._build_suite_directory (Sample.directory ["tests"; "plain"])
        (SuiteStructureParser.__init__ Sample.parsers None) = Ok (built, defaults) /\
      TestSuite.name tree = TestSuite.name built /\
      TestSuite.source tree = TestSuite.source built /\
      TestSuite.tests tree = TestSuite.tests built /\
      TestSuite.suites tree = TestSuite.suites built ++ below /\
      length below = 2 /\
      forall i c, [Sample.file "tests"; Sample.file "plain"] !! i = Some c ->
        exists child before after,
          below !! i = Some child /\
          Reference.suites_of Sample.parsers false (Some defaults)
            (take i [Sample.file "tests"; Sample.file "plain"]) None
            = Ok (take i below, before) /\
          Reference.suite_of Sample.parsers false (Some defaults) c before
            = Ok (child, after).
Proof.
  eexists. split; [vm_compute; reflexivity|].
  apply (directory_children_in_order Sample.parsers None).
  vm_compute. reflexivity.
Defined.
